(** * Quantum particle-in-a-box simulator: a shallow embedding of
      [simulator.py] and the properties of its engine.

    The Python class [QuantumSimulator] is embedded as a record of its
    attributes together with a heap of complex arrays (so that copies and
    aliases of wavefunction snapshots can be told apart).  Methods are
    computations in a state-and-exception monad: a raised exception keeps
    whatever mutation happened before it, as in Python.

    Numbers are kept behind the interface [Num], instantiated twice:
    - [float] (IEEE binary64, the arithmetic Python and numpy use): what
      the code computes, rounding, overflow and underflow included;
    - [R] (exact real arithmetic), for the algebraic reading of the
      formulas.
    Properties that do not depend on the arithmetic are stated for every
    instance. *)

From Stdlib Require Import String.
From Stdlib Require Import ZArith List Bool Lia.
From Stdlib Require Import Floats.
From Stdlib Require Import Reals Lra R_Ifp.
Import ListNotations.
Local Open Scope string_scope.
Local Open Scope list_scope.
Local Open Scope Z_scope.
Set Warnings "-inexact-float".

(** ** Exceptions and results *)

Inductive exception : Type :=
| ValueError (msg : string)
| ZeroDivisionError
| TypeError (msg : string)
| OverflowError.

Inductive result (A : Type) : Type :=
| Ok (a : A)
| Raise (e : exception).
Arguments Ok {A} a.
Arguments Raise {A} e.

Definition rbind {A B : Type} (r : result A) (k : A -> result B) : result B :=
  match r with
  | Ok a => k a
  | Raise e => Raise e
  end.

(** ** The numeric interface *)

Class Num (F : Type) : Type := {
  fzero : F;
  fone : F;
  fadd : F -> F -> F;
  fsub : F -> F -> F;
  fmul : F -> F -> F;
  fdiv : F -> F -> F;          (* numpy / IEEE division: never raises *)
  fopp : F -> F;
  fabs : F -> F;
  fsqrt : F -> F;
  fhypot : F -> F -> F;        (* C's hypot, behind numpy's abs of a complex *)
  ffinite : F -> bool;         (* math.isfinite *)
  feqb : F -> F -> bool;
  fltb : F -> F -> bool;
  fleb : F -> F -> bool;
  of_int : Z -> F;             (* Python int -> float *)
  to_int : F -> result Z       (* Python int(float): truncation *)
}.

Section Engine.

Context {F : Type} {num : Num F}.

(** Division of Python scalars raises on a zero divisor. *)
Definition pydiv (a b : F) : result F :=
  if feqb b fzero then Raise ZeroDivisionError else Ok (fdiv a b).

(** [a ** 2] on a numpy array entry: numpy squares, and never raises. *)
Definition fsquare (a : F) : F := fmul a a.

(** [a ** 2] on Python floats ([float_pow]): the power of a finite base
    that leaves the range raises [OverflowError]; an underflow to zero does
    not.  The platform's [pow(a, 2.0)] is taken to be the rounded product. *)
Definition pysquare (a : F) : result F :=
  if ffinite a && negb (ffinite (fmul a a)) then Raise OverflowError
  else Ok (fmul a a).

(** ** Complex numbers (numpy complex128) *)

Record complex : Type := Cplx { re : F; im : F }.

Definition of_real (r : F) : complex := Cplx r fzero.

(** The literal [-1j]. *)
Definition minus_j : complex := Cplx (fopp fzero) (fopp fone).

Definition cmul (z w : complex) : complex :=
  Cplx (fsub (fmul (re z) (re w)) (fmul (im z) (im w)))
       (fadd (fmul (re z) (im w)) (fmul (im z) (re w))).

(** numpy's complex division loop. *)
Definition cdiv (z w : complex) : complex :=
  let ar := fabs (re w) in
  let ai := fabs (im w) in
  if fleb ai ar then
    if feqb ar fzero && feqb ai fzero then
      Cplx (fdiv (re z) ar) (fdiv (im z) ar)
    else
      let rat := fdiv (im w) (re w) in
      let scl := fdiv fone (fadd (re w) (fmul (im w) rat)) in
      Cplx (fmul (fadd (re z) (fmul (im z) rat)) scl)
           (fmul (fsub (im z) (fmul (re z) rat)) scl)
  else
    let rat := fdiv (re w) (im w) in
    let scl := fdiv fone (fadd (im w) (fmul (re w) rat)) in
    Cplx (fmul (fadd (fmul (re z) rat) (im z)) scl)
         (fmul (fsub (fmul (im z) rat) (re z)) scl).

(** [np.abs] on a complex entry: the modulus, computed by [hypot]. *)
Definition cabs (z : complex) : F := fhypot (re z) (im z).

(** [np.abs(a)**2] entrywise. *)
Definition abs2 (a : list complex) : list F :=
  map (fun z => fsquare (cabs z)) a.

(** ** numpy arrays of reals *)

Fixpoint zip_add (a b : list F) : list F :=
  match a, b with
  | u :: a', v :: b' => fadd u v :: zip_add a' b'
  | _, _ => []
  end.

(** numpy's pairwise summation.  Fewer than 8 values are added one after
    the other, starting from [-0.0]. *)
Definition sum_few (a : list F) : F := fold_left fadd a (fopp fzero).

(** The eight running sums [r[0..7]] of a block, one group of 8 values
    after the other. *)
Fixpoint accumulate (groups : nat) (r a : list F) : list F * list F :=
  match groups with
  | O => (r, a)
  | S g => accumulate g (zip_add r (firstn 8 a)) (skipn 8 a)
  end.

(** A block of 8 to 128 values: eight running sums, combined two by two,
    then the values after the last full group of 8. *)
Definition sum_block (a : list F) : F :=
  let '(r, rest) := accumulate (length a / 8 - 1)%nat (firstn 8 a) (skipn 8 a) in
  match r with
  | [r0; r1; r2; r3; r4; r5; r6; r7] =>
      fold_left fadd rest
        (fadd (fadd (fadd r0 r1) (fadd r2 r3))
              (fadd (fadd r4 r5) (fadd r6 r7)))
  | _ => sum_few a
  end.

(** More than 128 values are split near the middle, at a multiple of 8.
    [depth] bounds the number of splits. *)
Fixpoint pairwise_sum (depth : nat) (a : list F) : F :=
  let n := length a in
  if (n <? 8)%nat then sum_few a
  else if (n <=? 128)%nat then sum_block a
  else match depth with
       | O => sum_block a
       | S d =>
           let n2 := (n / 2 - (n / 2) mod 8)%nat in
           fadd (pairwise_sum d (firstn n2 a)) (pairwise_sum d (skipn n2 a))
       end.

(** [np.sum(a)]: the reduction starts from the identity [0.0]. *)
Definition np_sum (a : list F) : F :=
  fadd fzero (pairwise_sum (length a) a).

Definition np_zeros (n : Z) : result (list F) :=
  if n <? 0 then Raise (ValueError "negative dimensions are not allowed")
  else Ok (repeat fzero (Z.to_nat n)).

Definition np_ones (n : Z) : result (list F) :=
  if n <? 0 then Raise (ValueError "negative dimensions are not allowed")
  else Ok (repeat fone (Z.to_nat n)).

Definition np_zeros_like (a : list F) : list F := map (fun _ => fzero) a.

Fixpoint zip_mul (a b : list F) : list F :=
  match a, b with
  | u :: a', v :: b' => fmul u v :: zip_mul a' b'
  | _, _ => []
  end.

(** Entrywise product with numpy's broadcasting of one-element arrays. *)
Definition np_mul (a b : list F) : result (list F) :=
  if Nat.eqb (length a) (length b) then Ok (zip_mul a b)
  else match a, b with
       | [u], _ => Ok (map (fun v => fmul u v) b)
       | _, [v] => Ok (map (fun u => fmul u v) a)
       | _, _ => Raise (ValueError "operands could not be broadcast together")
       end.

(** [np.linspace(start, stop, num)] with the end point included. *)
Definition np_linspace (start stop : F) (num : Z) : result (list F) :=
  if num <? 0 then
    Raise (ValueError "Number of samples must be non-negative")
  else
    let n := Z.to_nat num in
    let dv := num - 1 in
    let delta := fsub stop start in
    let idx := map (fun i => of_int (Z.of_nat i)) (seq 0 n) in
    let y :=
      if 0 <? dv then
        let step := fdiv delta (of_int dv) in
        if feqb step fzero then
          map (fun i => fmul (fdiv i (of_int dv)) delta) idx
        else map (fun i => fmul i step) idx
      else map (fun i => fmul i delta) idx in
    let y := map (fun v => fadd v start) y in
    Ok (if 1 <? num then removelast y ++ [stop] else y).

(** ** Sparse matrices stored by diagonals (scipy's DIA layout)

    A diagonal with offset [k] holds the entries [(i, i + k)]; its values
    are indexed by [min i (i + k)], as in the arguments of [scipy.sparse.diags]. *)

Record matrix (A : Type) : Type := Matrix {
  shape : Z * Z;
  diagonals : list (Z * list A)
}.
Arguments Matrix {A} shape diagonals.
Arguments shape {A} _.
Arguments diagonals {A} _.

Definition diag_length (shp : Z * Z) (off : Z) : Z :=
  Z.min (Z.min (fst shp + off) (snd shp - off)) (Z.min (fst shp) (snd shp)).

(** One diagonal of [diags]: longer inputs are cut, one-element inputs are
    broadcast, anything else does not fit. *)
Definition place_diagonal {A : Type} (shp : Z * Z) (d : list A) (off : Z)
  : result (Z * list A) :=
  let len := diag_length shp off in
  if len <? 0 then Raise (ValueError "Offset out of bounds")
  else if len <=? Z.of_nat (length d) then Ok (off, firstn (Z.to_nat len) d)
  else match d with
       | [v] => Ok (off, repeat v (Z.to_nat len))
       | _ => Raise (ValueError "Diagonal length does not agree with matrix size")
       end.

Fixpoint place_diagonals {A : Type} (shp : Z * Z) (ds : list (list A))
  (offs : list Z) : result (list (Z * list A)) :=
  match ds, offs with
  | [], [] => Ok []
  | d :: ds', o :: offs' =>
      rbind (place_diagonal shp d o) (fun p =>
      rbind (place_diagonals shp ds' offs') (fun ps => Ok (p :: ps)))
  | _, _ => Raise (ValueError "Different number of diagonals and offsets.")
  end.

(** [scipy.sparse.diags(diagonals, offsets, shape=shape)]. *)
Definition diags {A : Type} (ds : list (list A)) (offs : list Z)
  (shp : Z * Z) : result (matrix A) :=
  rbind (place_diagonals shp ds offs) (fun ps => Ok (Matrix shp ps)).

Definition mmap {A B : Type} (f : A -> B) (M : matrix A) : matrix B :=
  Matrix (shape M) (map (fun p => (fst p, map f (snd p))) (diagonals M)).

(** [c * M] *)
Definition mscale (c : F) (M : matrix F) : matrix F := mmap (fmul c) M.

(** [A + B] on sparse matrices. *)
Definition madd {A : Type} (P Q : matrix A) : result (matrix A) :=
  if (fst (shape P) =? fst (shape Q)) && (snd (shape P) =? snd (shape Q))
  then Ok (Matrix (shape P) (diagonals P ++ diagonals Q))
  else Raise (ValueError "inconsistent shapes").

(** The entry at row [i], column [j]. *)
Definition entry (M : matrix F) (i j : Z) : F :=
  fold_right
    (fun p acc =>
       if fst p =? j - i
       then fadd (nth (Z.to_nat (Z.min i j)) (snd p) fzero) acc
       else acc)
    fzero (diagonals M).

(** ** The propagator

    [expm_multiply(A, B)] is scipy's action of the matrix exponential; its
    numerical value is left abstract, its shape checks are kept. *)

Variable expm_action : matrix complex -> list complex -> list complex.

Definition expm_multiply (A : matrix complex) (B : list complex)
  : result (list complex) :=
  if negb (fst (shape A) =? snd (shape A)) then
    Raise (ValueError "expected A to be like a square matrix")
  else if negb (snd (shape A) =? Z.of_nat (length B)) then
    Raise (ValueError "shapes of matrices A and B are incompatible")
  else Ok (expm_action A B).

(** ** The simulator object and the heap *)

Definition addr : Type := nat.

Inductive potential_arg : Type :=
| Callable (f : list F -> list F)
| Array (a : list F).

Record QuantumSimulator : Type := mkSim {
  self_L : F;
  self_N : Z;
  self_m : F;
  self_hbar : F;
  self_dt : F;
  self_dx : F;
  self_x : list F;
  self_V : list F;
  self_T : matrix F;
  self_H : matrix F;
  self_U_matrix : option (matrix complex);
  self_psi : option addr;
  self_time : F;
  self_history : list addr
}.

(** The program state: one simulator and the complex arrays allocated so
    far (an address is an index into [heap]). *)
Record World : Type := mkWorld {
  self : QuantumSimulator;
  heap : list (list complex)
}.

Definition M (A : Type) : Type := World -> result A * World.

Definition ret {A : Type} (a : A) : M A := fun w => (Ok a, w).

Definition bind {A B : Type} (c : M A) (k : A -> M B) : M B :=
  fun w => match c w with
           | (Ok a, w') => k a w'
           | (Raise e, w') => (Raise e, w')
           end.

Definition raise {A : Type} (e : exception) : M A := fun w => (Raise e, w).

Definition lift {A : Type} (r : result A) : M A := fun w => (r, w).

Definition get_self : M QuantumSimulator := fun w => (Ok (self w), w).

Definition modify (f : QuantumSimulator -> QuantumSimulator) : M unit :=
  fun w => (Ok tt, mkWorld (f (self w)) (heap w)).

(** A fresh array: the result of numpy arithmetic or of [.copy()]. *)
Definition alloc (a : list complex) : M addr :=
  fun w => (Ok (length (heap w)), mkWorld (self w) (heap w ++ [a])).

Definition deref (h : list (list complex)) (p : addr) : list complex :=
  nth p h [].

Definition read (p : addr) : M (list complex) :=
  fun w => (Ok (deref (heap w) p), w).

Definition copy (p : addr) : M addr := bind (read p) alloc.

Notation "x <- c ;; k" := (bind c (fun x => k))
  (at level 61, c at next level, right associativity).
Notation "c ;;; k" := (bind c (fun _ => k))
  (at level 61, right associativity).

(** Attribute assignments [self.a = v]. *)
Definition set_V (v : list F) (s : QuantumSimulator) : QuantumSimulator :=
  mkSim (self_L s) (self_N s) (self_m s) (self_hbar s) (self_dt s)
        (self_dx s) (self_x s) v (self_T s) (self_H s) (self_U_matrix s)
        (self_psi s) (self_time s) (self_history s).

Definition set_H (h : matrix F) (s : QuantumSimulator) : QuantumSimulator :=
  mkSim (self_L s) (self_N s) (self_m s) (self_hbar s) (self_dt s)
        (self_dx s) (self_x s) (self_V s) (self_T s) h (self_U_matrix s)
        (self_psi s) (self_time s) (self_history s).

Definition set_U_matrix (u : option (matrix complex)) (s : QuantumSimulator)
  : QuantumSimulator :=
  mkSim (self_L s) (self_N s) (self_m s) (self_hbar s) (self_dt s)
        (self_dx s) (self_x s) (self_V s) (self_T s) (self_H s) u
        (self_psi s) (self_time s) (self_history s).

Definition set_psi (p : option addr) (s : QuantumSimulator) : QuantumSimulator :=
  mkSim (self_L s) (self_N s) (self_m s) (self_hbar s) (self_dt s)
        (self_dx s) (self_x s) (self_V s) (self_T s) (self_H s)
        (self_U_matrix s) p (self_time s) (self_history s).

Definition set_time (t : F) (s : QuantumSimulator) : QuantumSimulator :=
  mkSim (self_L s) (self_N s) (self_m s) (self_hbar s) (self_dt s)
        (self_dx s) (self_x s) (self_V s) (self_T s) (self_H s)
        (self_U_matrix s) (self_psi s) t (self_history s).

Definition set_history (h : list addr) (s : QuantumSimulator)
  : QuantumSimulator :=
  mkSim (self_L s) (self_N s) (self_m s) (self_hbar s) (self_dt s)
        (self_dx s) (self_x s) (self_V s) (self_T s) (self_H s)
        (self_U_matrix s) (self_psi s) (self_time s) h.

(** ** [QuantumSimulator.__init__] *)

Definition kinetic_diagonals (N : Z) : result (list (list F)) :=
  rbind (np_ones (N - 1)) (fun lower =>
  rbind (np_ones N) (fun mid =>
  rbind (np_ones (N - 1)) (fun upper =>
  Ok [lower; map (fmul (fopp (of_int 2))) mid; upper]))).

(** [np.zeros(N) if potential is None else potential(self.x)]: the
    argument is called, so it has to be a function. *)
Definition initial_potential (potential : option potential_arg) (N : Z)
  (x : list F) : result (list F) :=
  match potential with
  | None => np_zeros N
  | Some (Callable f) => Ok (f x)
  | Some (Array _) =>
      Raise (TypeError "'numpy.ndarray' object is not callable")
  end.

Definition __init__ (L : F) (N : Z) (m hbar dt : F)
  (potential : option potential_arg) : result QuantumSimulator :=
  rbind (pydiv L (of_int (N - 1))) (fun dx =>
  rbind (np_linspace fzero L N) (fun x =>
  rbind (initial_potential potential N x) (fun V =>
  rbind (pysquare hbar) (fun hbar2 =>
  rbind (pysquare dx) (fun dx2 =>
  rbind (pydiv (fopp hbar2) (fmul (fmul (of_int 2) m) dx2)) (fun kinetic_coeff =>
  rbind (kinetic_diagonals N) (fun ds =>
  rbind (diags ds [-1; 0; 1] (N, N)) (fun D =>
  let T := mscale kinetic_coeff D in
  rbind (diags [V] [0] (N, N)) (fun DV =>
  rbind (madd T DV) (fun H =>
  Ok (mkSim L N m hbar dt dx x V T H None None fzero []))))))))))).

(** ** [set_initial_wavefunction] *)

Definition norm_of (psi0 : list complex) (dx : F) : F :=
  fsqrt (fmul (np_sum (abs2 psi0)) dx).

Definition normalized (psi0 : list complex) (dx : F) : list complex :=
  map (fun z => cdiv z (of_real (norm_of psi0 dx))) psi0.

Definition set_initial_wavefunction (psi0 : list complex) : M unit :=
  s <- get_self ;;
  p <- alloc (normalized psi0 (self_dx s)) ;;
  modify (set_psi (Some p)) ;;;
  modify (set_time fzero) ;;;
  q <- copy p ;;
  modify (set_history [q]).

(** ** [step] and [evolve] *)

(** The matrix [-1j * self.H * self.dt / self.hbar].  scipy divides a
    sparse matrix by a scalar by multiplying it with [1. / scalar], a
    division of Python floats. *)
Definition generator_with (s : QuantumSimulator) (inv : F) : matrix complex :=
  mmap (fun h =>
          cmul (cmul (cmul minus_j (of_real h)) (of_real (self_dt s)))
               (of_real inv))
       (self_H s).

Definition generator (s : QuantumSimulator) : result (matrix complex) :=
  rbind (pydiv fone (self_hbar s)) (fun inv => Ok (generator_with s inv)).

Definition step : M unit :=
  s <- get_self ;;
  match self_psi s with
  | None => raise (ValueError "Initial wavefunction not set")
  | Some p =>
      cur <- read p ;;
      G <- lift (generator s) ;;
      next <- lift (expm_multiply G cur) ;;
      p' <- alloc next ;;
      modify (set_psi (Some p')) ;;;
      modify (fun s => set_time (fadd (self_time s) (self_dt s)) s) ;;;
      q <- copy p' ;;
      modify (fun s => set_history (self_history s ++ [q]) s)
  end.

(** [for _ in range(n): body] *)
Fixpoint for_range (n : nat) (body : M unit) : M unit :=
  match n with
  | O => ret tt
  | S k => body ;;; for_range k body
  end.

Definition evolve (total_time : F) : M unit :=
  s <- get_self ;;
  q <- lift (pydiv total_time (self_dt s)) ;;
  steps <- lift (to_int q) ;;
  for_range (Z.to_nat steps) step.

(** ** Observables *)

Definition probability_density : M (list F) :=
  s <- get_self ;;
  match self_psi s with
  | None => raise (TypeError "bad operand type for abs(): 'NoneType'")
  | Some p => cur <- read p ;; ret (abs2 cur)
  end.

Definition expectation_position : M F :=
  s <- get_self ;;
  rho <- probability_density ;;
  prod <- lift (np_mul (self_x s) rho) ;;
  ret (fmul (np_sum prod) (self_dx s)).

(** ** [update_potential] *)

(** [new_potential(self.x) if callable(new_potential) else new_potential] *)
Definition potential_value (arg : potential_arg) (s : QuantumSimulator)
  : list F :=
  match arg with
  | Callable f => f (self_x s)
  | Array a => a
  end.

Definition update_potential (new_potential : potential_arg) : M unit :=
  s <- get_self ;;
  modify (set_V (potential_value new_potential s)) ;;;
  s <- get_self ;;
  DV <- lift (diags [self_V s] [0] (self_N s, self_N s)) ;;
  H <- lift (madd (self_T s) DV) ;;
  modify (set_H H) ;;;
  modify (set_U_matrix None).

(** ** Example potentials *)

Definition infinite_well (x : list F) : list F := np_zeros_like x.

Definition barrier_potential (x : list F)
  (barrier_height barrier_width barrier_center : F) : list F :=
  let lo := fsub barrier_center (fdiv barrier_width (of_int 2)) in
  let hi := fadd barrier_center (fdiv barrier_width (of_int 2)) in
  map (fun xi => if fltb lo xi && fltb xi hi then barrier_height else fzero) x.

Definition double_barrier (x : list F) (height width separation : F)
  : list F :=
  let center1 := fdiv (of_int 4) (of_int 10) in
  let center2 := fadd center1 separation in
  let half := fdiv width (of_int 2) in
  map (fun xi =>
         if (fltb (fsub center1 half) xi && fltb xi (fadd center1 half))
            || (fltb (fsub center2 half) xi && fltb xi (fadd center2 half))
         then height else fzero) x.

End Engine.

Arguments complex F : clear implicits.
Arguments QuantumSimulator F : clear implicits.
Arguments World F : clear implicits.
Arguments potential_arg F : clear implicits.
Arguments M F A : clear implicits.
Arguments deref : simpl never.
Arguments generator_with : simpl never.
Arguments np_sum : simpl never.
Arguments Matrix {A} shape diagonals.
Arguments shape {A} _.
Arguments diagonals {A} _.

(** ** The two arithmetics *)

(** Python's [int()] on a real: truncation toward zero. *)
Definition Rtrunc (r : R) : Z :=
  if Rle_dec 0 r then Int_part r else - Int_part (- r).

#[export] Instance Num_R : Num R := {|
  fzero := 0%R;
  fone := 1%R;
  fadd := Rplus;
  fsub := Rminus;
  fmul := Rmult;
  fdiv := Rdiv;
  fopp := Ropp;
  fabs := Rabs;
  fsqrt := sqrt;
  fhypot := fun a b => sqrt (a * a + b * b);
  ffinite := fun _ => true;
  feqb := fun a b => if Req_dec_T a b then true else false;
  fltb := fun a b => if Rlt_dec a b then true else false;
  fleb := fun a b => if Rle_dec a b then true else false;
  of_int := IZR;
  to_int := fun r => Ok (Rtrunc r)
|}.

(** The signed mantissa of a finite binary64 value [(-1)^s * m * 2^e]. *)
Definition signed (s : bool) (m : positive) : Z :=
  if s then Z.neg m else Z.pos m.

(** [int()] on a binary64 value: truncation toward zero. *)
Definition float_to_int (f : float) : result Z :=
  match Prim2SF f with
  | S754_zero _ => Ok 0
  | S754_infinity _ => Raise OverflowError
  | S754_nan => Raise (ValueError "cannot convert float NaN to integer")
  | S754_finite s m e =>
      Ok (if 0 <=? e then signed s m * 2 ^ e
          else Z.quot (signed s m) (2 ^ (- e)))
  end.

(** The floor of a binary64 value (0 on the non-finite ones). *)
Definition float_floor (f : float) : Z :=
  match Prim2SF f with
  | S754_finite s m e =>
      if 0 <=? e then signed s m * 2 ^ e
      else Z.div (signed s m) (2 ^ (- e))
  | _ => 0
  end.

(** Neither a number nor finite. *)
Definition nonfinite (f : float) : bool :=
  match Prim2SF f with
  | S754_nan | S754_infinity _ => true
  | _ => false
  end.

(** [hypot] on binary64 values: the rounded square root of the exact sum
    of the squares, so that no intermediate value overflows or underflows;
    an infinite part gives infinity, also next to a NaN. *)
Definition SFhypot (x y : spec_float) : spec_float :=
  match x, y with
  | S754_infinity _, _ | _, S754_infinity _ => S754_infinity false
  | S754_nan, _ | _, S754_nan => S754_nan
  | S754_zero _, _ => SFabs y
  | _, S754_zero _ => SFabs x
  | S754_finite _ mx ex, S754_finite _ my ey =>
      let e := Z.min ex ey in
      let a := Z.shiftl (Z.pos mx) (ex - e) in
      let b := Z.shiftl (Z.pos my) (ey - e) in
      let '(q, e', l) :=
        SFsqrt_core_binary prec emax (a * a + b * b) (2 * e) in
      binary_round_aux prec emax false q e' l
  end.

Definition float_hypot (x y : float) : float :=
  SF2Prim (SFhypot (Prim2SF x) (Prim2SF y)).

(** [float(z)] for an integer below [2^63] in absolute value: the nearest
    binary64 value. *)
Definition float_of_int (z : Z) : float :=
  let a := PrimFloat.of_uint63 (Uint63.of_Z (Z.abs z)) in
  if z <? 0 then PrimFloat.opp a else a.

#[export] Instance Num_float : Num float := {|
  fzero := PrimFloat.zero;
  fone := PrimFloat.one;
  fadd := PrimFloat.add;
  fsub := PrimFloat.sub;
  fmul := PrimFloat.mul;
  fdiv := PrimFloat.div;
  fopp := PrimFloat.opp;
  fabs := PrimFloat.abs;
  fsqrt := PrimFloat.sqrt;
  fhypot := float_hypot;
  ffinite := fun f => negb (nonfinite f);
  feqb := PrimFloat.eqb;
  fltb := PrimFloat.ltb;
  fleb := PrimFloat.leb;
  of_int := float_of_int;
  to_int := float_to_int
|}.

(** Not a number, or plus infinity. *)
Definition pinf_nan (f : float) : Prop :=
  Prim2SF f = S754_nan \/ Prim2SF f = S754_infinity false.

(** ** Well-formed states *)

Section Invariants.

Context {F : Type} {num : Num F}.

(** The operators have the shape the constructor gave them. *)
Definition wf (s : QuantumSimulator F) : Prop :=
  shape (self_T s) = (self_N s, self_N s) /\
  shape (self_H s) = (self_N s, self_N s).

(** A wavefunction of the grid's length is installed and [hbar] is not
    zero: the states on which [step] goes through. *)
Definition ready (w : World F) : Prop :=
  wf (self w) /\
  feqb (self_hbar (self w)) fzero = false /\
  exists p, self_psi (self w) = Some p /\
            Z.of_nat (length (deref (heap w) p)) = self_N (self w).

(** Sum of [|psi_i|^2 * dx] over an array. *)
Definition total_probability (a : list (complex F)) (dx : F) : F :=
  fmul (np_sum (abs2 a)) dx.

(** The history length law, for an arithmetic [F] with its floor:
    installing leaves one snapshot, every further [step] adds one, and
    [evolve] is the loop of [floor (total_time / dt)] steps. *)
Definition history_length_law
  (expm_action : matrix (complex F) -> list (complex F) -> list (complex F))
  (floor : F -> Z) : Prop :=
  forall (w : World F) (psi0 : list (complex F)) (total_time : F),
    wf (self w) ->
    Z.of_nat (length psi0) = self_N (self w) ->
    feqb (self_hbar (self w)) fzero = false ->
    feqb (self_dt (self w)) fzero = false ->
    (exists k, to_int (fdiv total_time (self_dt (self w))) = Ok k) ->
    exists w0,
      set_initial_wavefunction psi0 w = (Ok tt, w0) /\
      length (self_history (self w0)) = 1%nat /\
      (forall n, exists w1,
          for_range n (step expm_action) w0 = (Ok tt, w1) /\
          length (self_history (self w1)) = (1 + n)%nat) /\
      let n := Z.to_nat (floor (fdiv total_time (self_dt (self w)))) in
      evolve expm_action total_time w0 = for_range n (step expm_action) w0 /\
      exists w1,
        evolve expm_action total_time w0 = (Ok tt, w1) /\
        length (self_history (self w1)) = (1 + n)%nat.

(** The three diagonals of the second-difference stencil. *)
Definition stencil (N : Z) : list (Z * list F) :=
  [(-1, repeat fone (Z.to_nat (N - 1)));
   (0, map (fmul (fopp (of_int 2))) (repeat fone (Z.to_nat N)));
   (1, repeat fone (Z.to_nat (N - 1)))].

(** Successive potential updates, each one run whether or not an earlier
    one raised (a caller may catch the exception and go on). *)
Definition update_all (args : list (potential_arg F)) (w : World F) : World F :=
  fold_left (fun w arg => snd (update_potential arg w)) args w.

(** A propagator that leaves the state as it is: the simplest action that
    keeps the length, used to run the engine on examples. *)
Definition idle_action (A : matrix (complex F)) (B : list (complex F))
  : list (complex F) := B.

End Invariants.

(** ** Sample simulators *)

(** A two-point box in exact arithmetic. *)
Definition real_box : QuantumSimulator R :=
  mkSim 1%R 2 1%R 1%R (1 / 1000)%R 1%R [0%R; 1%R] [0%R; 0%R]
        (Matrix (2, 2) [(-1, [(-1 / 2)%R]); (0, [1%R; 1%R]); (1, [(-1 / 2)%R])])
        (Matrix (2, 2) [(-1, [(-1 / 2)%R]); (0, [1%R; 1%R]); (1, [(-1 / 2)%R]);
                        (0, [0%R; 0%R])])
        None None 0%R [].

Definition real_world : World R := mkWorld real_box [].

Definition real_psi0 : list (complex R) := [Cplx 1%R 0%R; Cplx 0%R 1%R].

Definition empty_float_box : QuantumSimulator float :=
  mkSim 0%float 0 0%float 0%float 0%float 0%float [] []
        (Matrix (0, 0) []) (Matrix (0, 0) []) None None 0%float [].

(** [QuantumSimulator(L=1.0, N=3, dt=0.0001)] in binary64. *)
Definition float_box : QuantumSimulator float :=
  Eval vm_compute in
    match __init__ 1%float 3 1%float 1%float 0.0001%float None with
    | Ok s => s
    | Raise _ => empty_float_box
    end.

Definition float_world : World float := mkWorld float_box [].

Definition float_psi0 : list (complex float) :=
  [Cplx 1%float 0%float; Cplx 0%float 2%float; Cplx 0%float 0%float].

(** [QuantumSimulator(L=1.0, N=3, dt=0.1)] in binary64. *)
Definition tenth_box : QuantumSimulator float :=
  Eval vm_compute in
    match __init__ 1%float 3 1%float 1%float 0.1%float None with
    | Ok s => s
    | Raise _ => empty_float_box
    end.

(** ** Initial conditions ([utils.py])

    [np.pi], [np.exp] and [np.sin], numpy's exponential of a complex
    number and the power of Python floats are numpy's and the platform's;
    they are parameters here. *)

Section Utils.

Context {F : Type} {num : Num F}.
Variable np_pi : F.
Variables np_exp np_sin : F -> F.
Variable np_cexp : complex F -> complex F.
Variable float_pow : F -> F -> F.





End Utils.

(** [QuantumSimulator(L=1.0, N=500, dt=0.0001)], the simulator of
    [examples.py], in binary64. *)
Definition example_box : QuantumSimulator float :=
  Eval vm_compute in
    match __init__ 1%float 500 1%float 1%float 0.0001%float None with
    | Ok s => s
    | Raise _ => empty_float_box
    end.

(** [n] calls of [step] in a row. *)
Definition steps {F : Type} {num : Num F}
  (expm_action : matrix (complex F) -> list (complex F) -> list (complex F))
  (n : nat) : M F unit :=
  for_range n (step expm_action).

(** All the addresses of a list are allocated. *)
Definition allocated {F : Type} (h : list (list (complex F))) (l : list addr)
  : Prop :=
  Forall (fun p => (p < length h)%nat) l.

(** The snapshots are kept apart: the history holds allocated, pairwise
    different addresses, none of them the current state's, and its last
    snapshot has the current state's content. *)
Definition tidy {F : Type} (w : World F) : Prop :=
  allocated (heap w) (self_history (self w)) /\
  NoDup (self_history (self w)) /\
  exists p q older,
    self_psi (self w) = Some p /\ (p < length (heap w))%nat /\
    ~ In p (self_history (self w)) /\
    self_history (self w) = older ++ [q] /\
    deref (heap w) q = deref (heap w) p.

(** The attributes that time evolution has no business with. *)
Definition same_setup {F : Type} (s s' : QuantumSimulator F) : Prop :=
  self_L s' = self_L s /\ self_N s' = self_N s /\ self_m s' = self_m s /\
  self_hbar s' = self_hbar s /\ self_dt s' = self_dt s /\
  self_dx s' = self_dx s /\ self_x s' = self_x s /\ self_V s' = self_V s /\
  self_T s' = self_T s /\ self_H s' = self_H s /\
  self_U_matrix s' = self_U_matrix s.

(** ** The demonstrations ([examples.py])

    Two of them read [sim.U]; attribute lookup on the simulator object is
    therefore modelled: its attributes are the fourteen fields that
    [__init__] assigns and the methods of the class. *)

Inductive attr_value : Type :=
| VFloat (v : float)
| VInt (v : Z)
| VArray (v : list float)
| VMatrix (v : matrix float)
| VNoneOrMatrix (v : option (matrix (complex float)))
| VNoneOrState (v : option addr)
| VHistory (v : list addr)
| VMethod.

Definition method_names : list string :=
  ["__init__"; "set_initial_wavefunction"; "step"; "evolve";
   "probability_density"; "expectation_position"; "update_potential";
   "animate"].

Definition getattr (s : QuantumSimulator float) (name : string)
  : option attr_value :=
  if String.eqb name "L" then Some (VFloat (self_L s))
  else if String.eqb name "N" then Some (VInt (self_N s))
  else if String.eqb name "m" then Some (VFloat (self_m s))
  else if String.eqb name "hbar" then Some (VFloat (self_hbar s))
  else if String.eqb name "dt" then Some (VFloat (self_dt s))
  else if String.eqb name "dx" then Some (VFloat (self_dx s))
  else if String.eqb name "x" then Some (VArray (self_x s))
  else if String.eqb name "V" then Some (VArray (self_V s))
  else if String.eqb name "T" then Some (VMatrix (self_T s))
  else if String.eqb name "H" then Some (VMatrix (self_H s))
  else if String.eqb name "U_matrix" then Some (VNoneOrMatrix (self_U_matrix s))
  else if String.eqb name "psi" then Some (VNoneOrState (self_psi s))
  else if String.eqb name "time" then Some (VFloat (self_time s))
  else if String.eqb name "history" then Some (VHistory (self_history s))
  else if existsb (String.eqb name) method_names then Some VMethod
  else None.

(** How a demonstration ends. *)
Inductive outcome : Type :=
| Returned (w : World float)
| Raised (e : exception)
| AttributeError (name : string).

Section Examples.

(** The statements that follow the lookup of [sim.U]: what they do
    depends on a value the simulator does not have. *)
Variable rest : attr_value -> QuantumSimulator float -> outcome.

Definition run_tunneling_demo : outcome :=
  match __init__ 1%float 500 1%float 1%float 0.0001%float None with
  | Raise e => Raised e
  | Ok sim =>
      let sim :=
        set_V (barrier_potential (self_x sim) 50%float 0.05%float 0.5%float)
              sim in
      match getattr sim "U" with
      | None => AttributeError "U"
      | Some u => rest u sim
      end
  end.

Definition run_double_barrier_resonance : outcome :=
  match __init__ 1%float 500 1%float 1%float 0.0001%float None with
  | Raise e => Raised e
  | Ok sim =>
      let sim :=
        set_V (double_barrier (self_x sim) 30%float 0.03%float 0.15%float)
              sim in
      match getattr sim "U" with
      | None => AttributeError "U"
      | Some u => rest u sim
      end
  end.

End Examples.

(** * Properties *)

Section EngineFacts.

Context {F : Type} {num : Num F}.
Variable expm_action :
  matrix (complex F) -> list (complex F) -> list (complex F).
Hypothesis expm_action_length :
  forall A B, length (expm_action A B) = length B.

Lemma deref_fresh (h : list (list (complex F))) (a : list (complex F)) :
  deref (h ++ [a]) (length h) = a.
Proof. unfold deref. rewrite nth_middle. reflexivity. Qed.

Lemma deref_old (h : list (list (complex F))) (a : list (complex F)) (p : addr) :
  (p < length h)%nat -> deref (h ++ [a]) p = deref h p.
Proof. intros Hp. unfold deref. rewrite app_nth1 by exact Hp. reflexivity. Qed.

(** What one call of [set_initial_wavefunction] does, for every input. *)
Lemma set_initial_wavefunction_run (psi0 : list (complex F)) (w : World F) :
  set_initial_wavefunction psi0 w =
  (Ok tt,
   mkWorld
     (set_history [S (length (heap w))]
        (set_time fzero (set_psi (Some (length (heap w))) (self w))))
     ((heap w ++ [normalized psi0 (self_dx (self w))])
        ++ [normalized psi0 (self_dx (self w))])).
Proof.
  unfold set_initial_wavefunction, bind, get_self, alloc, modify, copy, read,
    bind; cbn.
  rewrite deref_fresh, length_app, Nat.add_1_r. reflexivity.
Qed.

Lemma generator_with_shape (s : QuantumSimulator F) (inv : F) :
  shape (generator_with s inv) = shape (self_H s).
Proof. reflexivity. Qed.

(** What one call of [step] does on a ready state. *)
Lemma step_run (w : World F) (p : addr) :
  wf (self w) ->
  feqb (self_hbar (self w)) fzero = false ->
  self_psi (self w) = Some p ->
  Z.of_nat (length (deref (heap w) p)) = self_N (self w) ->
  let next :=
    expm_action
      (generator_with (self w) (fdiv fone (self_hbar (self w))))
      (deref (heap w) p) in
  step expm_action w =
  (Ok tt,
   mkWorld
     (set_history (self_history (self w) ++ [S (length (heap w))])
        (set_time (fadd (self_time (self w)) (self_dt (self w)))
           (set_psi (Some (length (heap w))) (self w))))
     ((heap w ++ [next]) ++ [next])).
Proof.
  intros [_ HH] Hhbar Hp Hlen next.
  unfold step, bind, get_self; cbn. rewrite Hp.
  unfold read, lift, generator, pydiv; cbn. rewrite Hhbar; cbn.
  unfold expm_multiply.
  rewrite generator_with_shape, HH; cbn.
  rewrite Z.eqb_refl, Hlen, Z.eqb_refl; cbn.
  unfold alloc, modify, copy, read, bind; cbn.
  rewrite deref_fresh, length_app, Nat.add_1_r. reflexivity.
Qed.

Lemma step_ready (w : World F) :
  ready w ->
  exists w', step expm_action w = (Ok tt, w') /\ ready w' /\
    length (self_history (self w')) = S (length (self_history (self w))) /\
    self_dt (self w') = self_dt (self w) /\
    self_time (self w') = fadd (self_time (self w)) (self_dt (self w)).
Proof.
  intros (Hwf & Hhbar & p & Hp & Hlen).
  eexists. split; [apply (step_run w p Hwf Hhbar Hp Hlen)|].
  cbn. repeat split; try apply Hwf; try exact Hhbar.
  - exists (length (heap w)). split; [reflexivity|]. cbn.
    rewrite deref_old by (rewrite length_app; cbn; lia).
    rewrite deref_fresh, expm_action_length. exact Hlen.
  - rewrite length_app. cbn. lia.
Qed.

(** [n] iterations of the loop body on a ready state. *)
Lemma for_range_step (n : nat) : forall w : World F,
  ready w ->
  exists w', for_range n (step expm_action) w = (Ok tt, w') /\ ready w' /\
    length (self_history (self w')) = (n + length (self_history (self w)))%nat /\
    self_dt (self w') = self_dt (self w).
Proof.
  induction n as [|n IH]; intros w Hr.
  - exists w. cbn. unfold ret. auto.
  - destruct (step_ready w Hr) as (w1 & Hs & Hr1 & Hl1 & Hd1 & _).
    destruct (IH w1 Hr1) as (w2 & Hf & Hr2 & Hl2 & Hd2).
    exists w2. cbn. unfold bind at 1. rewrite Hs.
    repeat split; try assumption; try apply Hr2; [lia|congruence].
Qed.

(** [evolve] is the loop over the truncated quotient. *)
Lemma evolve_run (total_time : F) (k : Z) (w : World F) :
  feqb (self_dt (self w)) fzero = false ->
  to_int (fdiv total_time (self_dt (self w))) = Ok k ->
  evolve expm_action total_time w =
  for_range (Z.to_nat k) (step expm_action) w.
Proof.
  intros Hdt Hk.
  unfold evolve, bind, get_self, lift, pydiv; cbn.
  rewrite Hdt, Hk. reflexivity.
Qed.

Lemma set_initial_ready (psi0 : list (complex F)) (w : World F) :
  wf (self w) ->
  feqb (self_hbar (self w)) fzero = false ->
  Z.of_nat (length psi0) = self_N (self w) ->
  ready (snd (set_initial_wavefunction psi0 w)).
Proof.
  intros Hwf Hhbar Hlen. rewrite set_initial_wavefunction_run. cbn.
  split; [exact Hwf|]. split; [exact Hhbar|].
  exists (length (heap w)). cbn. split; [reflexivity|].
  cbn. rewrite deref_old by (rewrite length_app; cbn; lia).
  rewrite deref_fresh. unfold normalized. rewrite length_map. exact Hlen.
Qed.

(** The diagonal operator built from a potential of the grid's length. *)
Lemma diags_potential (v : list F) (n : Z) :
  Z.of_nat (length v) = n ->
  diags [v] [0] (n, n) = Ok (Matrix (n, n) [(0, v)]).
Proof.
  intros Hn. unfold diags, place_diagonals, place_diagonal, diag_length; cbn.
  rewrite Z.add_0_r, Z.sub_0_r, !Z.min_id.
  destruct (n <? 0) eqn:Hneg; [lia|].
  destruct (n <=? Z.of_nat (length v)) eqn:Hle; [|lia]. cbn.
  rewrite <- Hn, Nat2Z.id, firstn_all. reflexivity.
Qed.

(** [update_potential] with a potential of the grid's length. *)
Lemma update_potential_run (arg : potential_arg F) (w : World F) :
  wf (self w) ->
  Z.of_nat (length (potential_value arg (self w))) = self_N (self w) ->
  update_potential arg w =
  (Ok tt,
   mkWorld
     (set_U_matrix None
        (set_H (Matrix (self_N (self w), self_N (self w))
                  (diagonals (self_T (self w))
                     ++ [(0, potential_value arg (self w))]))
           (set_V (potential_value arg (self w)) (self w))))
     (heap w)).
Proof.
  intros [HT _] Hlen.
  unfold update_potential, bind, get_self, modify, lift; cbn.
  rewrite (diags_potential _ _ Hlen). cbn.
  unfold madd. rewrite HT; cbn. rewrite Z.eqb_refl; cbn. reflexivity.
Qed.

(** A potential longer than the grid is cut to the grid's length. *)
Lemma diags_potential_long (v : list F) (n : Z) :
  0 <= n <= Z.of_nat (length v) ->
  diags [v] [0] (n, n) = Ok (Matrix (n, n) [(0, firstn (Z.to_nat n) v)]).
Proof.
  intros Hn. unfold diags, place_diagonals, place_diagonal, diag_length; cbn.
  rewrite Z.add_0_r, Z.sub_0_r, !Z.min_id.
  destruct (n <? 0) eqn:Hneg; [lia|].
  destruct (n <=? Z.of_nat (length v)) eqn:Hle; [|lia]. reflexivity.
Qed.

Lemma update_potential_long (arg : potential_arg F) (w : World F) :
  wf (self w) ->
  0 <= self_N (self w) <= Z.of_nat (length (potential_value arg (self w))) ->
  update_potential arg w =
  (Ok tt,
   mkWorld
     (set_U_matrix None
        (set_H (Matrix (self_N (self w), self_N (self w))
                  (diagonals (self_T (self w))
                     ++ [(0, firstn (Z.to_nat (self_N (self w)))
                               (potential_value arg (self w)))]))
           (set_V (potential_value arg (self w)) (self w))))
     (heap w)).
Proof.
  intros [HT _] Hlen.
  unfold update_potential, bind, get_self, modify, lift; cbn.
  rewrite (diags_potential_long _ _ Hlen). cbn.
  unfold madd. rewrite HT; cbn. rewrite Z.eqb_refl; cbn. reflexivity.
Qed.

(** Whatever the argument, and whether or not the rebuild raises,
    [update_potential] has stored the new potential and has touched
    nothing but [V], [H] and [U_matrix]. *)
Lemma update_potential_frame (arg : potential_arg F) (w : World F) :
  let w' := snd (update_potential arg w) in
  self_V (self w') = potential_value arg (self w) /\
  self_T (self w') = self_T (self w) /\
  self_psi (self w') = self_psi (self w) /\
  self_time (self w') = self_time (self w) /\
  self_history (self w') = self_history (self w) /\
  heap w' = heap w /\
  self_N (self w') = self_N (self w) /\
  self_x (self w') = self_x (self w) /\
  self_dx (self w') = self_dx (self w) /\
  self_dt (self w') = self_dt (self w) /\
  self_hbar (self w') = self_hbar (self w).
Proof.
  unfold update_potential, bind, get_self, modify, lift; cbn.
  destruct (diags _ _ _) as [DV|e]; cbn; [|repeat split].
  destruct (madd _ _) as [H|e]; cbn; repeat split.
Qed.

(** Without a wavefunction, [step] raises its own error and the
    observables raise numpy's; nothing is modified. *)
Lemma step_uninitialized (w : World F) :
  self_psi (self w) = None ->
  step expm_action w = (Raise (ValueError "Initial wavefunction not set"), w).
Proof. intros Hn. unfold step, bind, get_self; cbn. rewrite Hn. reflexivity. Qed.

Lemma probability_density_uninitialized (w : World F) :
  self_psi (self w) = None ->
  probability_density w =
  (Raise (TypeError "bad operand type for abs(): 'NoneType'"), w).
Proof.
  intros Hn. unfold probability_density, bind, get_self; cbn.
  rewrite Hn. reflexivity.
Qed.

Lemma expectation_position_uninitialized (w : World F) :
  self_psi (self w) = None ->
  expectation_position w =
  (Raise (TypeError "bad operand type for abs(): 'NoneType'"), w).
Proof.
  intros Hn. unfold expectation_position, probability_density, bind, get_self.
  cbn. rewrite Hn. reflexivity.
Qed.

End EngineFacts.

(** ** Construction *)

Section Construction.

Context {F : Type} {num : Num F}.

Lemma place_diagonal_fit {A : Type} (n : Z) (off : Z) (d : list A) :
  0 <= diag_length (n, n) off ->
  Z.of_nat (length d) = diag_length (n, n) off ->
  place_diagonal (n, n) d off = Ok (off, d).
Proof.
  intros Hpos Hlen. unfold place_diagonal.
  destruct (diag_length (n, n) off <? 0) eqn:Hneg; [lia|].
  destruct (diag_length (n, n) off <=? Z.of_nat (length d)) eqn:Hle; [|lia].
  rewrite <- Hlen, Nat2Z.id, firstn_all. reflexivity.
Qed.

Lemma kinetic_diagonals_ok (N : Z) :
  1 <= N ->
  kinetic_diagonals N =
  Ok [repeat fone (Z.to_nat (N - 1));
      map (fmul (fopp (of_int 2))) (repeat fone (Z.to_nat N));
      repeat fone (Z.to_nat (N - 1))].
Proof.
  intros HN. unfold kinetic_diagonals, np_ones.
  destruct (N - 1 <? 0) eqn:H1; [lia|].
  destruct (N <? 0) eqn:H2; [lia|]. reflexivity.
Qed.

Lemma stencil_built (N : Z) :
  1 <= N ->
  diags [repeat fone (Z.to_nat (N - 1));
         map (fmul (fopp (of_int 2))) (repeat fone (Z.to_nat N));
         repeat fone (Z.to_nat (N - 1))] [-1; 0; 1] (N, N) =
  Ok (Matrix (N, N) (stencil N)).
Proof.
  intros HN. unfold diags, place_diagonals.
  rewrite !place_diagonal_fit;
    try (unfold diag_length; cbn [fst snd];
         rewrite ?length_map, ?repeat_length; lia).
  reflexivity.
Qed.




(** Construction once the division for [dx] and the grid have gone
    through: the arithmetic of the kinetic coefficient, then the
    operators. *)
Lemma init_run (L : F) (N : Z) (m hbar dt : F)
  (pot : option (potential_arg F)) (x : list F) :
  1 <= N ->
  feqb (of_int (N - 1)) fzero = false ->
  np_linspace fzero L N = Ok x ->
  let dx := fdiv L (of_int (N - 1)) in
  __init__ L N m hbar dt pot =
  rbind (initial_potential pot N x) (fun V =>
  rbind (pysquare hbar) (fun hbar2 =>
  rbind (pysquare dx) (fun dx2 =>
  rbind (pydiv (fopp hbar2) (fmul (fmul (of_int 2) m) dx2)) (fun c =>
  let T := mscale c (Matrix (N, N) (stencil N)) in
  rbind (diags [V] [0] (N, N)) (fun DV =>
  rbind (madd T DV) (fun H =>
  Ok (mkSim L N m hbar dt dx x V T H None None fzero []))))))).
Proof.
  intros HN Hd Hx dx. unfold __init__, pydiv at 1. rewrite Hd, Hx.
  cbn [rbind]. fold dx.
  destruct (initial_potential pot N x) as [V|e]; [|reflexivity]. cbn [rbind].
  destruct (pysquare hbar) as [hbar2|e]; [|reflexivity]. cbn [rbind].
  destruct (pysquare dx) as [dx2|e]; [|reflexivity]. cbn [rbind].
  destruct (pydiv _ _) as [c|e]; [|reflexivity]. cbn [rbind].
  rewrite kinetic_diagonals_ok by exact HN. cbn [rbind].
  rewrite stencil_built by exact HN. reflexivity.
Qed.

(** What a successful construction has gone through. *)
Lemma init_success (L : F) (N : Z) (m hbar dt : F)
  (pot : option (potential_arg F)) (s : QuantumSimulator F) :
  __init__ L N m hbar dt pot = Ok s ->
  1 <= N /\ feqb (of_int (N - 1)) fzero = false /\
  exists x V hbar2 dx2 c DV H,
    np_linspace fzero L N = Ok x /\
    initial_potential pot N x = Ok V /\
    pysquare hbar = Ok hbar2 /\
    pysquare (fdiv L (of_int (N - 1))) = Ok dx2 /\
    pydiv (fopp hbar2) (fmul (fmul (of_int 2) m) dx2) = Ok c /\
    diags [V] [0] (N, N) = Ok DV /\
    madd (mscale c (Matrix (N, N) (stencil N))) DV = Ok H /\
    s = mkSim L N m hbar dt (fdiv L (of_int (N - 1))) x V
          (mscale c (Matrix (N, N) (stencil N))) H None None fzero [].
Proof.
  intros Hok.
  assert (feqb (of_int (N - 1)) fzero = false) as Hd.
  { unfold __init__, pydiv at 1 in Hok.
    destruct (feqb (of_int (N - 1)) fzero); [discriminate|reflexivity]. }
  assert (exists x, np_linspace fzero L N = Ok x) as [x Hx].
  { unfold __init__, pydiv at 1 in Hok. rewrite Hd in Hok. cbn [rbind] in Hok.
    destruct (np_linspace fzero L N) as [x|e]; [|discriminate].
    exists x. reflexivity. }
  assert (1 <= N) as HN.
  { unfold __init__, pydiv at 1 in Hok. rewrite Hd, Hx in Hok.
    cbn [rbind] in Hok.
    destruct (initial_potential pot N x); [|discriminate]. cbn [rbind] in Hok.
    destruct (pysquare hbar); [|discriminate]. cbn [rbind] in Hok.
    destruct (pysquare _); [|discriminate]. cbn [rbind] in Hok.
    destruct (pydiv _ _); [|discriminate]. cbn [rbind] in Hok.
    unfold kinetic_diagonals, np_ones in Hok.
    destruct (N - 1 <? 0) eqn:E; [discriminate|]. lia. }
  split; [exact HN|]. split; [exact Hd|].
  rewrite (init_run L N m hbar dt pot x HN Hd Hx) in Hok.
  destruct (initial_potential pot N x) as [V|e] eqn:HV; [|discriminate].
  cbn [rbind] in Hok.
  destruct (pysquare hbar) as [hbar2|e] eqn:Hh; [|discriminate].
  cbn [rbind] in Hok.
  destruct (pysquare (fdiv L (of_int (N - 1)))) as [dx2|e] eqn:Hd2;
    [|discriminate].
  cbn [rbind] in Hok.
  destruct (pydiv _ _) as [c|e] eqn:Hc; [|discriminate]. cbn [rbind] in Hok.
  destruct (diags _ _ _) as [DV|e] eqn:HDV; [|discriminate].
  cbn [rbind] in Hok.
  destruct (madd _ _) as [H|e] eqn:Hadd; [|discriminate]. cbn [rbind] in Hok.
  injection Hok as <-.
  exists x, V, hbar2, dx2, c, DV, H.
  repeat (split; [reflexivity || assumption|]). reflexivity.
Qed.


End Construction.

(** ** Summation

    A property that additions preserve holds of [np.sum] of an array
    whose entries all have it, whatever the order of the additions. *)

Section SumClosure.

Context {F : Type} {num : Num F}.
Variable P : F -> Prop.
Hypothesis P_add : forall a b, P a -> P b -> P (fadd a b).
Hypothesis P_start : forall a, P a -> P (fadd (fopp fzero) a).
Hypothesis P_zero : forall a, P a -> P (fadd fzero a).

Lemma fold_left_closed (l : list F) : forall acc : F,
  P acc -> Forall P l -> P (fold_left fadd l acc).
Proof.
  induction l as [|a l IH]; intros acc Hacc Hl; [exact Hacc|].
  inversion Hl as [|? ? Ha Hl']; subst. cbn [fold_left].
  apply IH; [apply P_add; assumption|exact Hl'].
Qed.

Lemma sum_few_closed (a : list F) : Forall P a -> a <> [] -> P (sum_few a).
Proof.
  intros Ha Hne. destruct a as [|v a]; [contradiction|].
  inversion Ha as [|? ? Hv Ha']; subst. unfold sum_few. cbn [fold_left].
  apply fold_left_closed; [apply P_start; exact Hv|exact Ha'].
Qed.

Lemma zip_add_closed : forall r b : list F,
  Forall P r -> Forall P b -> Forall P (zip_add r b).
Proof.
  induction r as [|u r IH]; intros [|v b] Hr Hb; cbn; try constructor.
  - inversion Hr; inversion Hb; subst. apply P_add; assumption.
  - inversion Hr; inversion Hb; subst. apply IH; assumption.
Qed.

Lemma Forall_firstn (n : nat) (l : list F) : Forall P l -> Forall P (firstn n l).
Proof.
  intros Hl. apply Forall_forall. intros v Hv.
  rewrite Forall_forall in Hl. apply Hl. rewrite <- (firstn_skipn n l).
  apply in_or_app. left. exact Hv.
Qed.

Lemma Forall_skipn (n : nat) (l : list F) : Forall P l -> Forall P (skipn n l).
Proof.
  intros Hl. apply Forall_forall. intros v Hv.
  rewrite Forall_forall in Hl. apply Hl. rewrite <- (firstn_skipn n l).
  apply in_or_app. right. exact Hv.
Qed.

Lemma accumulate_closed (g : nat) : forall r a : list F,
  Forall P r -> Forall P a ->
  Forall P (fst (accumulate g r a)) /\ Forall P (snd (accumulate g r a)).
Proof.
  induction g as [|g IH]; intros r a Hr Ha; [split; assumption|].
  cbn [accumulate]. apply IH.
  - apply zip_add_closed; [exact Hr|apply Forall_firstn; exact Ha].
  - apply Forall_skipn. exact Ha.
Qed.

Lemma sum_block_closed (a : list F) : Forall P a -> a <> [] -> P (sum_block a).
Proof.
  intros Ha Hne. unfold sum_block.
  destruct (accumulate_closed (length a / 8 - 1) (firstn 8 a) (skipn 8 a))
    as [Hr Hrest]; [apply Forall_firstn; exact Ha|apply Forall_skipn; exact Ha|].
  destruct (accumulate _ _ _) as [r rest]. cbn [fst snd] in *.
  destruct r as [|r0 [|r1 [|r2 [|r3 [|r4 [|r5 [|r6 [|r7 [|r8 r]]]]]]]]];
    try (apply sum_few_closed; assumption).
  repeat match goal with
         | H : Forall P (_ :: _) |- _ => inversion H; clear H; subst
         end.
  apply fold_left_closed; [|exact Hrest].
  repeat apply P_add; assumption.
Qed.

Lemma pairwise_sum_closed (d : nat) : forall a : list F,
  Forall P a -> a <> [] -> P (pairwise_sum d a).
Proof.
  induction d as [|d IH]; intros a Ha Hne; cbn [pairwise_sum];
    destruct (length a <? 8)%nat; try (apply sum_few_closed; assumption);
    destruct (length a <=? 128)%nat eqn:E;
    try (apply sum_block_closed; assumption).
  apply Nat.leb_gt in E.
  pose proof (Nat.div_mod_eq (length a) 2) as Hdiv.
  pose proof (Nat.mod_upper_bound (length a) 2 ltac:(lia)) as Hm2.
  pose proof (Nat.mod_upper_bound (length a / 2) 8 ltac:(lia)) as Hm8.
  apply P_add; apply IH.
  - apply Forall_firstn. exact Ha.
  - intros Hnil. apply (f_equal (@length F)) in Hnil.
    rewrite length_firstn in Hnil. cbn [length] in Hnil. lia.
  - apply Forall_skipn. exact Ha.
  - intros Hnil. apply (f_equal (@length F)) in Hnil.
    rewrite length_skipn in Hnil. cbn [length] in Hnil. lia.
Qed.

Lemma np_sum_closed (a : list F) : Forall P a -> a <> [] -> P (np_sum a).
Proof.
  intros Ha Hne. unfold np_sum. apply P_zero, pairwise_sum_closed; assumption.
Qed.

End SumClosure.

(** ** Facts of the two arithmetics *)

Section RealFacts.

Local Open Scope R_scope.

Lemma feqb_R_false (a b : R) : a <> b -> feqb a b = false.
Proof. intros Hab. cbn. destruct (Req_dec_T a b); [contradiction|reflexivity]. Qed.

Lemma pydiv_R (a b : R) : b <> 0 -> pydiv a b = Ok (a / b).
Proof.
  intros Hb. unfold pydiv; cbn.
  destruct (Req_dec_T b 0); [contradiction|reflexivity].
Qed.


















(** Truncation and floor give the same number of loop iterations. *)
Lemma Rtrunc_iterations (q : R) : Z.to_nat (Rtrunc q) = Z.to_nat (Int_part q).
Proof.
  unfold Rtrunc. destruct (Rle_dec 0 q) as [|Hneg]; [reflexivity|].
  destruct (base_Int_part q) as [Hlo _].
  destruct (base_Int_part (- q)) as [_ Hhi].
  assert (Int_part q < 0)%Z by (apply lt_IZR; lra).
  assert (-1 < Int_part (- q))%Z by (apply lt_IZR; lra).
  lia.
Qed.

End RealFacts.

Section FloatFacts.

Lemma signed_iterations (s : bool) (m : positive) (d : Z) :
  0 < d ->
  Z.to_nat (Z.quot (signed s m) d) = Z.to_nat (Z.div (signed s m) d).
Proof.
  intros Hd. destruct s; cbn [signed].
  - assert (Z.neg m / d < 0) by (apply Z.div_lt_upper_bound; lia).
    assert (Z.quot (Z.neg m) d <= 0).
    { change (Z.neg m) with (- Z.pos m). rewrite Z.quot_opp_l by lia.
      pose proof (Z.quot_pos (Z.pos m) d). lia. }
    lia.
  - rewrite Z.quot_div_nonneg by lia. reflexivity.
Qed.

(** Truncation and floor give the same number of loop iterations. *)
Lemma float_to_int_iterations (q : float) (k : Z) :
  float_to_int q = Ok k -> Z.to_nat k = Z.to_nat (float_floor q).
Proof.
  unfold float_to_int, float_floor.
  destruct (Prim2SF q) as [s|s| |s m e]; try discriminate.
  - intros [= <-]. reflexivity.
  - intros [= <-]. destruct (0 <=? e) eqn:He; [reflexivity|].
    apply signed_iterations. apply Z.pow_pos_nonneg; lia.
Qed.

(** The quotient is the rounded one: [0.5 / 0.0001] gives 5000 steps, but
    [0.6 / 0.0001] is just below 6000 in binary64 and gives 5999. *)
Example rounded_quotients :
  float_to_int (0.5 / 0.0001)%float = Ok 5000 /\
  float_to_int (0.6 / 0.0001)%float = Ok 5999 /\
  float_to_int (-0.5 / 0.001)%float = Ok (-500).
Proof. repeat split; vm_compute; reflexivity. Qed.

End FloatFacts.

Section RealConstruction.

Lemma linspace_R (L : R) (N : Z) :
  2 <= N -> L <> 0%R ->
  exists x, np_linspace 0%R L N = Ok x /\
    length x = Z.to_nat N /\
    forall i, 0 <= i < N -> nth (Z.to_nat i) x 0%R = (IZR i * (L / IZR (N - 1)))%R.
Proof.
  intros HN HL. unfold np_linspace.
  destruct (N <? 0) eqn:H0; [lia|].
  destruct (0 <? N - 1) eqn:H1; [|lia].
  destruct (1 <? N) eqn:H2; [|lia].
  assert (IZR (N - 1) <> 0%R) as Hd by (apply not_0_IZR; lia).
  cbn [fsub fdiv feqb fzero fmul fadd of_int Num_R].
  destruct (Req_dec_T ((L - 0) / IZR (N - 1)) 0) as [Hz|_].
  { exfalso. apply HL. 
    assert (L = ((L - 0) / IZR (N - 1)) * IZR (N - 1))%R as -> by (field; exact Hd).
    rewrite Hz. lra. }
  eexists. split; [reflexivity|].
  rewrite !map_map.
  set (g := fun i : nat => (IZR (Z.of_nat i) * ((L - 0) / IZR (N - 1)) + 0)%R).
  set (n := Z.to_nat N).
  assert (length (map g (seq 0 n)) = n) as Hlen
      by (rewrite length_map, length_seq; reflexivity).
  rewrite removelast_firstn_len, Hlen.
  split.
  - rewrite length_app, length_firstn, Hlen. cbn. lia.
  - intros i Hi.
    destruct (Z.eq_dec i (N - 1)) as [->|Hne].
    + rewrite app_nth2; rewrite length_firstn, Hlen;
        replace (Nat.min (Nat.pred n) n) with (Z.to_nat (N - 1)) by lia;
        [|lia].
      rewrite Nat.sub_diag. cbn. field. exact Hd.
    + rewrite app_nth1 by (rewrite length_firstn, Hlen; lia).
      rewrite nth_firstn.
      destruct (Z.to_nat i <? Nat.pred n)%nat eqn:Hlt;
        [|apply Nat.ltb_ge in Hlt; lia].
      rewrite (nth_indep _ 0%R (g 0%nat)) by (rewrite Hlen; lia).
      rewrite map_nth, seq_nth by lia. unfold g. cbn [Nat.add].
      rewrite Z2Nat.id by lia. field. exact Hd.
Qed.

Lemma nth_scaled_ones (c a : R) (n p : nat) :
  (p < n)%nat -> nth p (map (Rmult c) (repeat a n)) 0%R = (c * a)%R.
Proof.
  intros Hp. rewrite map_repeat. apply nth_repeat_lt. exact Hp.
Qed.

Lemma stencil_entry (c : R) (N i j : Z) :
  0 <= i < N -> 0 <= j < N ->
  entry (mscale c (Matrix (N, N) (stencil N))) i j =
  if i =? j then (c * (-2 * 1))%R
  else if Z.abs (i - j) =? 1 then (c * 1)%R
  else 0%R.
Proof.
  intros Hi Hj. unfold entry, mscale, mmap, stencil.
  cbn [diagonals map fold_right fst snd fadd fmul fzero fone fopp of_int Num_R].
  destruct (i =? j) eqn:E0.
  - apply Z.eqb_eq in E0. subst j.
    destruct (-1 =? i - i) eqn:E1; [lia|].
    destruct (0 =? i - i) eqn:E2; [|lia].
    destruct (1 =? i - i) eqn:E3; [lia|].
    rewrite map_map, Z.min_id.
    rewrite map_repeat, nth_repeat_lt by lia. lra.
  - apply Z.eqb_neq in E0.
    destruct (0 =? j - i) eqn:E2; [lia|].
    destruct (Z.abs (i - j) =? 1) eqn:Ea.
    + destruct (-1 =? j - i) eqn:E1; destruct (1 =? j - i) eqn:E3; try lia;
        rewrite nth_scaled_ones by lia; lra.
    + destruct (-1 =? j - i) eqn:E1; [lia|].
      destruct (1 =? j - i) eqn:E3; [lia|]. reflexivity.
Qed.

Lemma entry_with_potential (shp shp' : Z * Z) (ds : list (Z * list R))
  (v : list R) (i j : Z) :
  entry (Matrix shp (ds ++ [(0, v)])) i j =
  (entry (Matrix shp' ds) i j +
   (if i =? j then nth (Z.to_nat i) v 0 else 0))%R.
Proof.
  unfold entry. cbn [diagonals].
  induction ds as [|[off vals] ds IH].
  - cbn [app fold_right fst snd fadd fzero Num_R].
    destruct (i =? j) eqn:E.
    + apply Z.eqb_eq in E. subst j.
      replace (0 =? i - i) with true by (symmetry; apply Z.eqb_eq; lia).
      rewrite Z.min_id. lra.
    + apply Z.eqb_neq in E.
      replace (0 =? j - i) with false by (symmetry; apply Z.eqb_neq; lia).
      lra.
  - cbn [app fold_right fst snd fadd fzero Num_R] in *.
    destruct (off =? j - i); rewrite IH; lra.
Qed.

Lemma entry_rebuilt (T : matrix R) (shp : Z * Z) (v : list R) (i j : Z) :
  entry (Matrix shp (diagonals T ++ [(0, v)])) i j =
  (entry T i j + (if i =? j then nth (Z.to_nat i) v 0 else 0))%R.
Proof. destruct T as [shpT ds]. apply entry_with_potential. Qed.

Lemma pysquare_R (a : R) : pysquare a = Ok (a * a)%R.
Proof. reflexivity. Qed.

(** The denominator of the kinetic coefficient vanishes with [m] or [L]. *)
Lemma kinetic_denominator_R (L m : R) (N : Z) (c : R) :
  N <> 1 ->
  pydiv c (fmul (fmul (of_int 2) m)
                ((L / IZR (N - 1)) * (L / IZR (N - 1)))%R) =
  if Req_dec_T m 0 then Raise ZeroDivisionError
  else if Req_dec_T L 0 then Raise ZeroDivisionError
  else Ok (c / (2 * m * ((L / IZR (N - 1)) * (L / IZR (N - 1)))))%R.
Proof.
  intros HN.
  assert (IZR (N - 1) <> 0%R) as Hd by (apply not_0_IZR; lia).
  unfold pydiv. cbn [feqb fmul fdiv fzero of_int Num_R].
  destruct (Req_dec_T m 0) as [->|Hm].
  { destruct (Req_dec_T _ 0) as [_|Hn]; [reflexivity|].
    exfalso. apply Hn. ring. }
  destruct (Req_dec_T L 0) as [->|HL].
  { destruct (Req_dec_T _ 0) as [_|Hn]; [reflexivity|].
    exfalso. apply Hn. unfold Rdiv. ring. }
  destruct (Req_dec_T _ 0) as [Hz|_]; [|reflexivity].
  exfalso.
  apply Rmult_integral in Hz as [Hz|Hz];
    [apply Rmult_integral in Hz as [Hz|Hz]; lra|].
  assert (L / IZR (N - 1) = 0)%R as Hq
      by (apply Rmult_integral in Hz as [Hz|Hz]; exact Hz).
  apply HL. replace L with (L / IZR (N - 1) * IZR (N - 1))%R by (field; exact Hd).
  rewrite Hq. ring.
Qed.

(** Construction on a valid grid, up to the evaluation of the potential. *)
Lemma init_core (L : R) (N : Z) (m hbar dt : R)
  (pot : option (potential_arg R)) (x : list R) :
  2 <= N -> L <> 0%R -> m <> 0%R ->
  np_linspace 0%R L N = Ok x ->
  let dx := (L / IZR (N - 1))%R in
  let T := mscale (- (hbar * hbar) / (2 * m * (dx * dx)))%R
             (Matrix (N, N) (stencil N)) in
  __init__ L N m hbar dt pot =
  rbind (initial_potential pot N x) (fun V =>
  rbind (diags [V] [0] (N, N)) (fun DV =>
  rbind (madd T DV) (fun H =>
  Ok (mkSim L N m hbar dt dx x V T H None None 0%R [])))).
Proof.
  intros HN HL Hm Hx dx T.
  assert (IZR (N - 1) <> 0%R) as Hd by (apply not_0_IZR; lia).
  rewrite (init_run L N m hbar dt pot x);
    [|lia|apply feqb_R_false; exact Hd|exact Hx].
  destruct (initial_potential pot N x) as [V|e]; [|reflexivity].
  cbn [rbind]. rewrite !pysquare_R. cbn [rbind].
  change (fdiv L (of_int (N - 1))) with (L / IZR (N - 1))%R.
  rewrite kinetic_denominator_R by lia.
  destruct (Req_dec_T m 0) as [|_]; [contradiction|].
  destruct (Req_dec_T L 0) as [|_]; [contradiction|].
  reflexivity.
Qed.

(** Construction succeeds on a valid grid with a potential of its length. *)
Lemma init_ok (L : R) (N : Z) (m hbar dt : R)
  (pot : option (potential_arg R)) (x V : list R) :
  2 <= N -> L <> 0%R -> m <> 0%R ->
  np_linspace 0%R L N = Ok x ->
  initial_potential pot N x = Ok V ->
  Z.of_nat (length V) = N ->
  let dx := (L / IZR (N - 1))%R in
  let T := mscale (- (hbar * hbar) / (2 * m * (dx * dx)))%R
             (Matrix (N, N) (stencil N)) in
  __init__ L N m hbar dt pot =
  Ok (mkSim L N m hbar dt dx x V T
        (Matrix (N, N) (diagonals T ++ [(0, V)])) None None 0%R []).
Proof.
  intros HN HL Hm Hx HV Hlen dx T.
  rewrite (init_core L N m hbar dt pot x HN HL Hm Hx), HV. cbn [rbind].
  rewrite (diags_potential V N Hlen). cbn [rbind].
  unfold madd; cbn. rewrite Z.eqb_refl; cbn. reflexivity.
Qed.

(** What a successful construction has computed. *)
Lemma init_inversion (L : R) (N : Z) (m hbar dt : R)
  (pot : option (potential_arg R)) (s : QuantumSimulator R) :
  __init__ L N m hbar dt pot = Ok s ->
  2 <= N /\ L <> 0%R /\ m <> 0%R /\
  exists x V DV H,
    np_linspace 0%R L N = Ok x /\
    initial_potential pot N x = Ok V /\
    diags [V] [0] (N, N) = Ok DV /\
    madd (mscale (- (hbar * hbar) / (2 * m * (L / IZR (N - 1) * (L / IZR (N - 1)))))%R
            (Matrix (N, N) (stencil N))) DV = Ok H /\
    s = mkSim L N m hbar dt (L / IZR (N - 1))%R x V
          (mscale (- (hbar * hbar) / (2 * m * (L / IZR (N - 1) * (L / IZR (N - 1)))))%R
             (Matrix (N, N) (stencil N)))
          H None None 0%R [].
Proof.
  intros Hok.
  destruct (init_success L N m hbar dt pot s Hok)
    as (HN & Hd & x & V & hbar2 & dx2 & c & DV & H
        & Hx & HV & Hh & Hd2 & Hc & HDV & Hadd & ->).
  assert (N <> 1) as HN1.
  { intros ->. cbn in Hd. destruct (Req_dec_T 0 0); [discriminate|lra]. }
  rewrite pysquare_R in Hh, Hd2. injection Hh as <-. injection Hd2 as <-.
  change (fdiv L (of_int (N - 1))) with (L / IZR (N - 1))%R in *.
  rewrite kinetic_denominator_R in Hc by exact HN1.
  destruct (Req_dec_T m 0) as [|Hm]; [discriminate|].
  destruct (Req_dec_T L 0) as [|HL]; [discriminate|].
  injection Hc as <-.
  split; [lia|]. split; [exact HL|]. split; [exact Hm|].
  exists x, V, DV, H. repeat (split; [assumption|]). reflexivity.
Qed.

Lemma init_grid_length (L : R) (N : Z) (m hbar dt : R)
  (pot : option (potential_arg R)) (s : QuantumSimulator R) :
  __init__ L N m hbar dt pot = Ok s -> Z.of_nat (length (self_x s)) = N.
Proof.
  intros Hok.
  destruct (init_inversion L N m hbar dt pot s Hok)
    as (HN & HL & _ & x & V & DV & H & Hx & _ & _ & _ & ->).
  destruct (linspace_R L N HN HL) as (x' & Hx' & Hlen & _).
  rewrite Hx in Hx'. injection Hx' as <-. cbn. rewrite Hlen. lia.
Qed.

(** Entries of [T + diag v]. *)
Lemma madd_entry (T H : matrix R) (shp : Z * Z) (v : list R) (i j : Z) :
  madd T (Matrix shp [(0, v)]) = Ok H ->
  shape H = shape T /\
  entry H i j =
  (entry T i j + (if i =? j then nth (Z.to_nat i) v 0 else 0))%R.
Proof.
  unfold madd. destruct (_ && _); [|discriminate].
  intros [= <-]. destruct T as [shpT ds]. cbn [shape diagonals].
  split; [reflexivity|]. apply entry_with_potential.
Qed.

(** The sample box is what the constructor builds. *)
Lemma real_grid : np_linspace 0%R 1%R 2 = Ok [0%R; 1%R].
Proof.
  unfold np_linspace. cbn.
  destruct (Req_dec_T _ _) as [Hz|_]; [exfalso; lra|].
  change (Pos.to_nat 2) with 2%nat. cbn. f_equal. f_equal. lra.
Qed.

Lemma real_box_constructed :
  __init__ 1%R 2 1%R 1%R (1 / 1000)%R None = Ok real_box.
Proof.
  rewrite (init_ok 1%R 2 1%R 1%R (1 / 1000)%R None [0%R; 1%R] [0%R; 0%R]);
    try lia; try lra; try reflexivity; try exact real_grid.
  unfold real_box, mscale, mmap, stencil. cbn.
  change (Pos.to_nat 1) with 1%nat. change (Pos.to_nat 2) with 2%nat. cbn.
  repeat (f_equal; try field).
Qed.

End RealConstruction.

(** Identities of binary64 arithmetic, from the IEEE specification of the
    operations. *)

Section FloatAlgebra.












End FloatAlgebra.

Section FloatZeroNorm.

Lemma Prim2SF_zero : Prim2SF PrimFloat.zero = S754_zero false.
Proof. reflexivity. Qed.

Lemma Prim2SF_one :
  Prim2SF PrimFloat.one = S754_finite false 4503599627370496 (-52).
Proof. reflexivity. Qed.

Lemma float_eqb_zero (f : float) :
  feqb f fzero = true -> exists s, Prim2SF f = S754_zero s.
Proof.
  unfold feqb, fzero, Num_float. rewrite eqb_spec, Prim2SF_zero.
  destruct (Prim2SF f) as [s|s| |s m e]; try discriminate.
  - intros _. exists s. reflexivity.
  - destruct s; discriminate.
  - destruct s; discriminate.
Qed.

Lemma nonfinite_div_zero (x d : float) :
  Prim2SF d = S754_zero false -> nonfinite (x / d) = true.
Proof.
  intros Hd. unfold nonfinite. rewrite div_spec, Hd.
  unfold SF64div, SFdiv. destruct (Prim2SF x); reflexivity.
Qed.

(** Division by a zero real goes through numpy's zero-divisor branch. *)
Lemma cdiv_zero_norm (z : complex float) (r : float) (s : bool) :
  Prim2SF r = S754_zero s ->
  cdiv z (of_real r) = Cplx (re z / PrimFloat.abs r)%float (im z / PrimFloat.abs r)%float.
Proof.
  intros Hr. unfold cdiv, of_real; cbn [re im].
  unfold fabs, fleb, feqb, fzero, fdiv, Num_float.
  assert (Prim2SF (PrimFloat.abs r) = S754_zero false) as Ha
      by (rewrite abs_spec, Hr; reflexivity).
  assert (PrimFloat.leb (PrimFloat.abs PrimFloat.zero) (PrimFloat.abs r) = true) as ->.
  { rewrite leb_spec, Ha. reflexivity. }
  assert (PrimFloat.eqb (PrimFloat.abs r) PrimFloat.zero = true) as ->.
  { rewrite eqb_spec, Ha. reflexivity. }
  reflexivity.
Qed.

(** [hypot] of two non-finite parts is infinite or not a number. *)
Lemma hypot_nonfinite (a b : float) :
  nonfinite a = true -> nonfinite b = true -> pinf_nan (float_hypot a b).
Proof.
  unfold nonfinite, pinf_nan, float_hypot.
  destruct (Prim2SF a) as [s|s| |s m e]; try discriminate; intros _;
    destruct (Prim2SF b) as [s'|s'| |s' m' e']; try discriminate; intros _;
    cbn [SFhypot]; rewrite Prim2SF_SF2Prim by reflexivity; auto.
Qed.

Lemma pinf_nan_add (a b : float) :
  pinf_nan a -> pinf_nan b -> pinf_nan (a + b)%float.
Proof.
  unfold pinf_nan. rewrite add_spec.
  intros [Ha|Ha] [Hb|Hb]; rewrite Ha, Hb; auto.
Qed.

Lemma pinf_nan_square (a : float) : pinf_nan a -> pinf_nan (a * a)%float.
Proof.
  unfold pinf_nan. rewrite mul_spec. unfold SF64mul, SFmul.
  intros [-> | ->]; auto.
Qed.

Lemma pinf_nan_abs2 (z : complex float) :
  nonfinite (re z) = true -> nonfinite (im z) = true ->
  pinf_nan (fsquare (cabs z)).
Proof.
  intros Hr Hi. unfold fsquare, cabs, fmul, fhypot, Num_float.
  apply pinf_nan_square, hypot_nonfinite; assumption.
Qed.

Lemma zero_add_pinf_nan (a : float) :
  pinf_nan a -> pinf_nan (PrimFloat.zero + a)%float.
Proof.
  unfold pinf_nan. rewrite add_spec, Prim2SF_zero. unfold SF64add, SFadd.
  intros [-> | ->]; auto.
Qed.

Lemma neg_zero_add_pinf_nan (a : float) :
  pinf_nan a -> pinf_nan (- PrimFloat.zero + a)%float.
Proof.
  unfold pinf_nan. rewrite add_spec, opp_spec, Prim2SF_zero.
  unfold SF64add, SFadd, SFopp. intros [-> | ->]; auto.
Qed.

Lemma np_sum_pinf_nan (l : list float) :
  Forall pinf_nan l -> l <> [] -> pinf_nan (np_sum l).
Proof.
  apply (np_sum_closed pinf_nan).
  - exact pinf_nan_add.
  - exact neg_zero_add_pinf_nan.
  - exact zero_add_pinf_nan.
Qed.

Lemma pinf_nan_times_not_one (a d : float) :
  pinf_nan a -> feqb (fmul a d) fone = false.
Proof.
  unfold pinf_nan, feqb, fmul, fone, Num_float.
  rewrite eqb_spec, mul_spec, Prim2SF_one.
  unfold SF64mul, SFmul.
  intros [-> | ->]; [reflexivity|].
  destruct (Prim2SF d) as [s|s| |s m e]; try reflexivity; destruct s; reflexivity.
Qed.

Lemma zero_times_not_one (a d : float) (s : bool) :
  Prim2SF a = S754_zero s -> feqb (fmul a d) fone = false.
Proof.
  intros Ha. unfold feqb, fmul, fone, Num_float.
  rewrite eqb_spec, mul_spec, Prim2SF_one, Ha.
  unfold SF64mul, SFmul.
  destruct (Prim2SF d) as [s'|s'| |s' m e]; try reflexivity;
    destruct s, s'; reflexivity.
Qed.

(** Sums of zeros.  The sum of no value at all is zero as well. *)
Lemma np_sum_nil_float : Prim2SF (np_sum (@nil float)) = S754_zero false.
Proof. vm_compute. reflexivity. Qed.

Lemma add_pzero (a b : float) :
  Prim2SF a = S754_zero false -> Prim2SF b = S754_zero false ->
  Prim2SF (a + b)%float = S754_zero false.
Proof. intros Ha Hb. rewrite add_spec, Ha, Hb. reflexivity. Qed.

Lemma np_sum_pzero (l : list float) :
  Forall (fun v => Prim2SF v = S754_zero false) l ->
  Prim2SF (np_sum l) = S754_zero false.
Proof.
  intros Hl. destruct l as [|v l]; [exact np_sum_nil_float|].
  apply (np_sum_closed (fun v => Prim2SF v = S754_zero false));
    [exact add_pzero| | |exact Hl|discriminate].
  - intros a Ha. unfold fadd, fopp, fzero, Num_float.
    rewrite add_spec, opp_spec, Prim2SF_zero, Ha. reflexivity.
  - intros a Ha. unfold fadd, fzero, Num_float.
    rewrite add_spec, Prim2SF_zero, Ha. reflexivity.
Qed.

(** The modulus of a zero entry is [+0.0], whatever the signs. *)
Lemma abs2_zero_entry (z : complex float) :
  feqb (re z) fzero = true -> feqb (im z) fzero = true ->
  Prim2SF (fsquare (cabs z)) = S754_zero false.
Proof.
  intros Hr Hi.
  destruct (float_eqb_zero _ Hr) as [sr Hsr].
  destruct (float_eqb_zero _ Hi) as [si Hsi].
  unfold fsquare, cabs, fmul, fhypot, Num_float, float_hypot.
  rewrite mul_spec, Hsr, Hsi. cbn [SFhypot SFabs].
  rewrite Prim2SF_SF2Prim by reflexivity. reflexivity.
Qed.

(** The computed norm of an all-zero array is zero. *)
Lemma zero_array_norm (psi0 : list (complex float)) (dx : float) :
  Forall (fun z => feqb (re z) fzero = true /\ feqb (im z) fzero = true) psi0 ->
  nonfinite dx = false ->
  feqb (norm_of psi0 dx) fzero = true.
Proof.
  intros Hz Hdx.
  assert (Prim2SF (np_sum (abs2 psi0)) = S754_zero false) as Hs.
  { apply np_sum_pzero. unfold abs2. apply Forall_map.
    revert Hz. apply Forall_impl. intros z [Hr Hi].
    apply abs2_zero_entry; assumption. }
  unfold norm_of. cbn [feqb fsqrt fmul fzero Num_float].
  rewrite eqb_spec, sqrt_spec, mul_spec, Hs, Prim2SF_zero.
  unfold nonfinite in Hdx.
  destruct (Prim2SF dx) as [s|s| |s m e]; try discriminate;
    destruct s; reflexivity.
Qed.

End FloatZeroNorm.

(** * The claims *)

Section HistoryLength.

Context {F : Type} {num : Num F}.
Variable expm_action :
  matrix (complex F) -> list (complex F) -> list (complex F).
Hypothesis expm_action_length :
  forall A B, length (expm_action A B) = length B.
Variable floor : F -> Z.
Hypothesis floor_iterations :
  forall q k, to_int q = Ok k -> Z.to_nat k = Z.to_nat (floor q).

Lemma history_length_generic : history_length_law expm_action floor.
Proof.
  intros w psi0 total_time Hwf Hlen Hhbar Hdt [k Hk].
  pose proof (set_initial_ready psi0 w Hwf Hhbar Hlen) as Hready.
  rewrite set_initial_wavefunction_run in Hready. cbn [snd] in Hready.
  eexists. split; [apply set_initial_wavefunction_run|].
  split; [reflexivity|]. split.
  - intros n.
    destruct (for_range_step expm_action expm_action_length n _ Hready)
      as (w1 & Hrun & _ & Hl & _).
    exists w1. split; [exact Hrun|]. rewrite Hl. cbn. lia.
  - cbn zeta. rewrite <- (floor_iterations _ _ Hk).
    assert (evolve expm_action total_time
              (mkWorld
                 (set_history [S (length (heap w))]
                    (set_time fzero (set_psi (Some (length (heap w))) (self w))))
                 ((heap w ++ [normalized psi0 (self_dx (self w))])
                    ++ [normalized psi0 (self_dx (self w))])) =
            for_range (Z.to_nat k) (step expm_action)
              (mkWorld
                 (set_history [S (length (heap w))]
                    (set_time fzero (set_psi (Some (length (heap w))) (self w))))
                 ((heap w ++ [normalized psi0 (self_dx (self w))])
                    ++ [normalized psi0 (self_dx (self w))]))) as Hev.
    { apply evolve_run; cbn; assumption. }
    split; [exact Hev|].
    destruct (for_range_step expm_action expm_action_length (Z.to_nat k) _ Hready)
      as (w1 & Hrun & _ & Hl & _).
    exists w1. rewrite Hev. split; [exact Hrun|]. rewrite Hl. cbn. lia.
Qed.

End HistoryLength.

(** C1. History length law.  After [set_initial_wavefunction] the history
    has length 1; after [n] further calls of [step] it has length [1 + n];
    and [evolve total_time] is exactly the loop of
    [n = floor (total_time / dt)] calls of [step], one after the other, so
    that the history then has length [1 + n].  This holds in exact real
    arithmetic and in binary64, where the quotient is the rounded one.
    (The installed array has the grid's length, [hbar] and [dt] are not
    zero, and a negative quotient gives no step at all.) *)
Theorem history_length_law_holds :
  (forall expm_action : matrix (complex R) -> list (complex R) -> list (complex R),
      (forall A B, length (expm_action A B) = length B) ->
      history_length_law expm_action Int_part) /\
  (forall expm_action :
            matrix (complex float) -> list (complex float) -> list (complex float),
      (forall A B, length (expm_action A B) = length B) ->
      history_length_law expm_action float_floor).
Proof.
  split; intros expm_action Hlen; apply history_length_generic; try assumption.
  - intros q k [= <-]. apply Rtrunc_iterations.
  - intros q k Hk. apply float_to_int_iterations. exact Hk.
Qed.

Lemma history_length_law_witness :
  (exists w1,
      evolve idle_action (1 / 2)%R
        (snd (set_initial_wavefunction real_psi0 real_world)) = (Ok tt, w1) /\
      length (self_history (self w1)) =
      (1 + Z.to_nat (Int_part ((1 / 2) / (1 / 1000))))%nat) /\
  (exists w1,
      evolve idle_action 0.5%float
        (snd (set_initial_wavefunction float_psi0 float_world)) = (Ok tt, w1) /\
      Z.of_nat (length (self_history (self w1))) = 5001).
Proof.
  destruct history_length_law_holds as [HR HF]. split.
  - destruct (HR idle_action (fun _ _ => eq_refl) real_world real_psi0 (1 / 2)%R)
      as (w0 & Hset & _ & _ & _ & w1 & Hev & Hl).
    + split; reflexivity.
    + reflexivity.
    + apply feqb_R_false. cbn. lra.
    + apply feqb_R_false. cbn. lra.
    + eexists. reflexivity.
    + rewrite Hset. exists w1. split; [exact Hev|exact Hl].
  - destruct (HF idle_action (fun _ _ => eq_refl) float_world float_psi0 0.5%float)
      as (w0 & Hset & _ & _ & _ & w1 & Hev & Hl).
    + split; reflexivity.
    + reflexivity.
    + vm_compute. reflexivity.
    + vm_compute. reflexivity.
    + exists 5000. vm_compute. reflexivity.
    + rewrite Hset. exists w1. split; [exact Hev|].
      rewrite Hl. vm_compute. reflexivity.
Defined.




(** C3 (what the code does).  Without an installed wavefunction, [step],
    [probability_density] and [expectation_position] all raise at once and
    leave the simulator and the snapshots exactly as they were.  Only
    [step] has the guard and raises the engine's own
    [ValueError "Initial wavefunction not set"]; the two observables have
    none: they reach numpy's [abs] with [None] and raise its [TypeError]. *)
Theorem uninitialized_state_errors :
  forall (F : Type) (num : Num F)
         (expm_action : matrix (complex F) -> list (complex F) -> list (complex F))
         (w : World F),
    self_psi (self w) = None ->
    step expm_action w =
      (Raise (ValueError "Initial wavefunction not set"), w) /\
    probability_density w =
      (Raise (TypeError "bad operand type for abs(): 'NoneType'"), w) /\
    expectation_position w =
      (Raise (TypeError "bad operand type for abs(): 'NoneType'"), w).
Proof.
  intros F num expm_action w Hn. split; [|split].
  - apply step_uninitialized. exact Hn.
  - apply probability_density_uninitialized. exact Hn.
  - apply expectation_position_uninitialized. exact Hn.
Qed.

Lemma uninitialized_state_errors_witness :
  self_psi (self float_world) = None /\
  step idle_action float_world =
    (Raise (ValueError "Initial wavefunction not set"), float_world) /\
  probability_density float_world =
    (Raise (TypeError "bad operand type for abs(): 'NoneType'"), float_world).
Proof.
  split; [reflexivity|].
  destruct (uninitialized_state_errors float Num_float idle_action float_world
              eq_refl) as (Hs & Hp & _).
  split; [exact Hs|exact Hp].
Defined.

Section PotentialUpdates.

Context {F : Type} {num : Num F}.

(** Any number of updates leaves everything but [V], [H] and [U_matrix]. *)
Lemma update_all_frame (args : list (potential_arg F)) : forall w : World F,
  self_T (self (update_all args w)) = self_T (self w) /\
  self_psi (self (update_all args w)) = self_psi (self w) /\
  self_time (self (update_all args w)) = self_time (self w) /\
  self_history (self (update_all args w)) = self_history (self w) /\
  heap (update_all args w) = heap w.
Proof.
  induction args as [|arg args IH]; intros w; [cbn; repeat split|].
  change (update_all (arg :: args) w)
    with (update_all args (snd (update_potential arg w))).
  destruct (IH (snd (update_potential arg w))) as (H1 & H2 & H3 & H4 & H5).
  destruct (update_potential_frame arg w)
    as (_ & G1 & G2 & G3 & G4 & G5 & _).
  cbn zeta in *.
  rewrite H1, H2, H3, H4, H5. repeat split; assumption.
Qed.

(** A single value is broadcast along the whole diagonal. *)
Lemma update_potential_broadcast (arg : potential_arg F) (w : World F) (v : F) :
  wf (self w) ->
  potential_value arg (self w) = [v] ->
  1 < self_N (self w) ->
  update_potential arg w =
  (Ok tt,
   mkWorld
     (set_U_matrix None
        (set_H (Matrix (self_N (self w), self_N (self w))
                  (diagonals (self_T (self w))
                     ++ [(0, repeat v (Z.to_nat (self_N (self w))))]))
           (set_V [v] (self w))))
     (heap w)).
Proof.
  intros [HT _] Hv HN.
  unfold update_potential, bind, get_self, modify, lift; cbn.
  rewrite Hv.
  unfold diags, place_diagonals, place_diagonal, diag_length; cbn.
  rewrite Z.add_0_r, Z.sub_0_r, !Z.min_id.
  destruct (self_N (self w) <? 0) eqn:Hneg; [lia|].
  destruct (self_N (self w) <=? 1) eqn:Hle; [lia|]. cbn.
  unfold madd. rewrite HT; cbn. rewrite Z.eqb_refl; cbn. reflexivity.
Qed.

(** An array too short to fill the diagonal, other than a single value:
    the rebuild raises, after [V] has been assigned and before [H] and
    [U_matrix] are. *)
Lemma update_potential_short_raises (arg : potential_arg F) (w : World F) :
  Z.of_nat (length (potential_value arg (self w))) < self_N (self w) ->
  length (potential_value arg (self w)) <> 1%nat ->
  update_potential arg w =
  (Raise (ValueError "Diagonal length does not agree with matrix size"),
   mkWorld (set_V (potential_value arg (self w)) (self w)) (heap w)).
Proof.
  intros Hlt Hone.
  unfold update_potential, bind, get_self, modify, lift; cbn.
  unfold diags, place_diagonals, place_diagonal, diag_length; cbn.
  rewrite Z.add_0_r, Z.sub_0_r, !Z.min_id.
  destruct (self_N (self w) <? 0) eqn:Hneg; [lia|].
  destruct (self_N (self w) <=? _) eqn:Hle; [lia|].
  destruct (potential_value arg (self w)) as [|v [|v' l]]; cbn;
    try reflexivity.
  cbn in Hone. congruence.
Qed.

End PotentialUpdates.

(** C7. Updating the potential.  A call of [update_potential] with an
    array stores that array as [V]; a call with a function stores the
    function's value on the grid; either call leaves [T], the
    wavefunction, the clock, the history and the snapshots as they were.
    When the new potential has the grid's length the call returns
    normally, [U_matrix] is reset and the Hamiltonian is the sum of [T] and
    of the diagonal matrix of [V] (in exact arithmetic: entry by entry,
    [H_ij = T_ij + V_i] on the diagonal and [T_ij] off it).  After any
    number of successive updates [T], the wavefunction, the clock, the
    history and the snapshots are still as they were. *)
Theorem update_potential_effect :
  (forall (F : Type) (num : Num F) (w : World F),
      (forall a : list F,
          self_V (self (snd (update_potential (Array a) w))) = a) /\
      (forall f : list F -> list F,
          self_V (self (snd (update_potential (Callable f) w)))
          = f (self_x (self w))) /\
      (forall arg : potential_arg F,
          let w' := snd (update_potential arg w) in
          self_T (self w') = self_T (self w) /\
          self_psi (self w') = self_psi (self w) /\
          self_time (self w') = self_time (self w) /\
          self_history (self w') = self_history (self w) /\
          heap w' = heap w /\
          (wf (self w) ->
           Z.of_nat (length (self_V (self w'))) = self_N (self w) ->
           fst (update_potential arg w) = Ok tt /\
           wf (self w') /\
           self_H (self w') =
             Matrix (self_N (self w), self_N (self w))
                    (diagonals (self_T (self w)) ++ [(0, self_V (self w'))]) /\
           self_U_matrix (self w') = None)) /\
      (forall args : list (potential_arg F),
          self_T (self (update_all args w)) = self_T (self w) /\
          self_psi (self (update_all args w)) = self_psi (self w) /\
          self_time (self (update_all args w)) = self_time (self w) /\
          self_history (self (update_all args w)) = self_history (self w) /\
          heap (update_all args w) = heap w)) /\
  (forall (w : World R) (arg : potential_arg R),
      let w' := snd (update_potential arg w) in
      wf (self w) ->
      Z.of_nat (length (self_V (self w'))) = self_N (self w) ->
      forall i j,
        entry (self_H (self w')) i j =
        (entry (self_T (self w')) i j +
         (if i =? j then nth (Z.to_nat i) (self_V (self w')) 0 else 0))%R).
Proof.
  split.
  - intros F num w. split; [|split; [|split]].
    + intros a. apply (update_potential_frame (Array a) w).
    + intros f. apply (update_potential_frame (Callable f) w).
    + intros arg w'.
      destruct (update_potential_frame arg w)
        as (HV & HT & Hp & Ht & Hh & Hheap & _).
      repeat (split; [assumption|]).
      intros Hwf Hlen. subst w'. rewrite HV in Hlen.
      rewrite (update_potential_run arg w Hwf Hlen).
      cbn [fst snd self heap self_V self_H self_T self_psi self_time
           self_history self_N self_U_matrix set_U_matrix set_H set_V].
      split; [reflexivity|]. split; [split; [apply Hwf|reflexivity]|].
      split; reflexivity.
    + intros args. apply update_all_frame.
  - intros w arg w' Hwf Hlen. subst w'.
    rewrite (proj1 (update_potential_frame arg w)) in Hlen.
    rewrite (update_potential_run arg w Hwf Hlen).
    cbn [fst snd self heap self_V self_H self_T self_psi self_time
         self_history self_N set_U_matrix set_H set_V].
    intros i j. apply entry_rebuilt.
Qed.

Lemma update_potential_effect_witness :
  let bump :=
    Callable (fun x => barrier_potential x 50%float 0.05%float 0.5%float) in
  let w' := snd (update_potential bump float_world) in
  wf float_box /\
  self_x float_box = [0%float; 0.5%float; 1%float] /\
  fst (update_potential bump float_world) = Ok tt /\
  self_V (self w') = [0%float; 50%float; 0%float] /\
  self_H (self w') =
    Matrix (3, 3)
           (diagonals (self_T float_box)
              ++ [(0, [0%float; 50%float; 0%float])]) /\
  self_V (self (snd (update_potential (Array [3%R; 4%R]) real_world)))
  = [3%R; 4%R] /\
  entry (self_H (self (snd (update_potential (Array [3%R; 4%R]) real_world))))
        1 1 = (entry (self_T real_box) 1 1 + 4)%R.
Proof.
  intros bump w'.
  assert (wf float_box) as Hwf by (split; reflexivity).
  assert (wf real_box) as HwfR by (split; reflexivity).
  destruct update_potential_effect as [Hgen Hreal].
  destruct (Hgen float Num_float float_world) as (_ & Hcall & Hframe & _).
  destruct (Hgen R Num_R real_world) as (Harr & _ & HframeR & _).
  pose proof (Hcall (fun x => barrier_potential x 50%float 0.05%float 0.5%float))
    as HV.
  fold bump in HV. fold w' in HV.
  assert (self_V (self w') = [0%float; 50%float; 0%float]) as HV'
      by (rewrite HV; vm_compute; reflexivity).
  destruct (Hframe bump) as (_ & _ & _ & _ & _ & Hgood).
  fold w' in Hgood.
  destruct (Hgood Hwf) as (Hok & _ & HH & _);
    [rewrite HV'; reflexivity|].
  split; [exact Hwf|]. split; [reflexivity|]. split; [exact Hok|].
  split; [exact HV'|]. split; [rewrite HH, HV'; reflexivity|].
  split; [apply Harr|].
  rewrite (Hreal real_world (Array [3%R; 4%R]) HwfR);
    [|rewrite Harr; reflexivity].
  rewrite Harr.
  destruct (HframeR (Array [3%R; 4%R])) as (HT & _). rewrite HT. reflexivity.
Defined.

(** C4 (as the code has it).  No length is checked by the engine.
    [set_initial_wavefunction] returns normally on an array of any length
    and installs its normalisation (the entries divided by the computed
    norm), of that same length, with the clock at zero and a history of
    one copy.
    [update_potential] stores its argument as [V] (the array itself, or
    the function's value on the grid) whatever its length, before the
    Hamiltonian is rebuilt, and never touches [T], the wavefunction, the
    clock or the history.  An array at least as long as the grid is
    accepted, the Hamiltonian being [T] plus the diagonal of its first [N]
    values; a single value is accepted and broadcast along the diagonal;
    any other array shorter than the grid makes the rebuild raise
    [ValueError], with [V] already replaced and [H] and [U_matrix] as
    before. *)
Theorem length_mismatch_behaviour :
  forall (F : Type) (num : Num F) (w : World F),
    let N := self_N (self w) in
    let stored (arg : potential_arg F) :=
      self_V (self (snd (update_potential arg w))) in
    (forall psi0 : list (complex F),
        exists w' a b,
          set_initial_wavefunction psi0 w = (Ok tt, w') /\
          self_psi (self w') = Some a /\
          deref (heap w') a =
            map (fun z => cdiv z (of_real (norm_of psi0 (self_dx (self w)))))
                psi0 /\
          length (deref (heap w') a) = length psi0 /\
          self_time (self w') = fzero /\
          self_history (self w') = [b] /\
          deref (heap w') b = deref (heap w') a) /\
    (forall a : list F, stored (Array a) = a) /\
    (forall f : list F -> list F, stored (Callable f) = f (self_x (self w))) /\
    (forall arg : potential_arg F,
        let w' := snd (update_potential arg w) in
        self_T (self w') = self_T (self w) /\
        self_psi (self w') = self_psi (self w) /\
        self_time (self w') = self_time (self w) /\
        self_history (self w') = self_history (self w) /\
        heap w' = heap w) /\
    (forall arg : potential_arg F,
        wf (self w) ->
        0 <= N <= Z.of_nat (length (stored arg)) ->
        fst (update_potential arg w) = Ok tt /\
        self_H (self (snd (update_potential arg w))) =
          Matrix (N, N)
                 (diagonals (self_T (self w))
                    ++ [(0, firstn (Z.to_nat N) (stored arg))])) /\
    (forall (arg : potential_arg F) (v : F),
        wf (self w) ->
        stored arg = [v] ->
        1 < N ->
        fst (update_potential arg w) = Ok tt /\
        self_H (self (snd (update_potential arg w))) =
          Matrix (N, N)
                 (diagonals (self_T (self w))
                    ++ [(0, repeat v (Z.to_nat N))])) /\
    (forall arg : potential_arg F,
        Z.of_nat (length (stored arg)) < N ->
        length (stored arg) <> 1%nat ->
        fst (update_potential arg w) =
          Raise (ValueError "Diagonal length does not agree with matrix size") /\
        self_H (self (snd (update_potential arg w))) = self_H (self w) /\
        self_U_matrix (self (snd (update_potential arg w)))
        = self_U_matrix (self w)).
Proof.
  intros F num w N stored.
  assert (forall arg, stored arg = potential_value arg (self w)) as Hst
      by (intros arg; apply (update_potential_frame arg w)).
  split; [|split; [|split; [|split; [|split; [|split]]]]].
  - intros psi0. eexists. exists (length (heap w)), (S (length (heap w))).
    split; [apply set_initial_wavefunction_run|].
    cbn [self heap self_psi self_time self_history
         set_history set_time set_psi].
    rewrite deref_old by (rewrite length_app; cbn; lia).
    rewrite deref_fresh.
    replace (S (length (heap w)))
      with (length (heap w ++ [normalized psi0 (self_dx (self w))]))
      by (rewrite length_app; cbn; lia).
    rewrite deref_fresh.
    split; [reflexivity|]. split; [reflexivity|].
    split; [unfold normalized; apply length_map|].
    split; [reflexivity|]. split; reflexivity.
  - intros a. apply (Hst (Array a)).
  - intros f. apply (Hst (Callable f)).
  - intros arg w'.
    destruct (update_potential_frame arg w)
      as (_ & HT & Hp & Ht & Hh & Hheap & _).
    repeat (split; [assumption|]). assumption.
  - intros arg Hwf Hlen. rewrite Hst in *.
    rewrite (update_potential_long arg w Hwf Hlen). split; reflexivity.
  - intros arg v Hwf Hv HN. rewrite Hst in Hv.
    rewrite (update_potential_broadcast arg w v Hwf Hv HN). split; reflexivity.
  - intros arg Hlt Hone. rewrite Hst in *.
    rewrite (update_potential_short_raises arg w Hlt Hone).
    split; [reflexivity|]. split; reflexivity.
Qed.

Lemma length_mismatch_behaviour_witness :
  let H (a : list float) :=
    self_H (self (snd (update_potential (Array a) float_world))) in
  wf float_box /\ self_N float_box = 3 /\
  fst (update_potential (Array [1%float; 2%float; 3%float; 4%float]) float_world)
  = Ok tt /\
  H [1%float; 2%float; 3%float; 4%float] =
    Matrix (3, 3)
           (diagonals (self_T float_box)
              ++ [(0, [1%float; 2%float; 3%float])]) /\
  H [7%float] =
    Matrix (3, 3)
           (diagonals (self_T float_box)
              ++ [(0, [7%float; 7%float; 7%float])]) /\
  fst (update_potential (Array [1%float; 2%float]) float_world) =
    Raise (ValueError "Diagonal length does not agree with matrix size") /\
  self_V (self (snd (update_potential (Array [1%float; 2%float]) float_world)))
  = [1%float; 2%float] /\
  H [1%float; 2%float] = self_H float_box.
Proof.
  intros H.
  assert (wf float_box) as Hwf by (split; reflexivity).
  destruct (length_mismatch_behaviour float Num_float float_world)
    as (_ & Harr & _ & _ & Hlong & Hone & Hshort).
  split; [exact Hwf|]. split; [reflexivity|].
  destruct (Hlong (Array [1%float; 2%float; 3%float; 4%float]) Hwf)
    as [Hok HH]; [rewrite Harr; cbn; lia|].
  split; [exact Hok|]. split; [unfold H; rewrite HH, Harr; reflexivity|].
  destruct (Hone (Array [7%float]) 7%float Hwf) as [_ H7];
    [apply Harr|reflexivity|].
  split; [exact H7|].
  destruct (Hshort (Array [1%float; 2%float])) as (He & HH2 & _);
    [rewrite Harr; cbn; lia|rewrite Harr; cbn; lia|].
  split; [exact He|]. split; [apply Harr|exact HH2].
Defined.

(** C4 fails as stated: on a three-point grid, a one-element wavefunction
    is installed without any error, a four-element potential is accepted,
    and a two-element potential raises only after [V] has been replaced. *)
Lemma length_mismatch_not_rejected :
  self_N float_box = 3 /\
  fst (set_initial_wavefunction [Cplx 1%float 0%float] float_world) = Ok tt /\
  self_psi (self (snd (set_initial_wavefunction [Cplx 1%float 0%float]
                         float_world))) = Some 0%nat /\
  fst (update_potential (Array [1%float; 2%float; 3%float; 4%float])
         float_world) = Ok tt /\
  self_V (self (snd (update_potential (Array [1%float; 2%float]) float_world)))
  = [1%float; 2%float] /\
  self_V float_box <> [1%float; 2%float].
Proof.
  repeat split; try (vm_compute; reflexivity).
  vm_compute. discriminate.
Qed.

Section FloatConstruction.


End FloatConstruction.

Section ConstructionOutcome.

Context {F : Type} {num : Num F}.


End ConstructionOutcome.






(** C8 (as the code has it).  The [potential] argument is called on the
    grid: given a function, the constructor stores its value on the grid as
    [V]; given none, [V] is the all-zero array of length [N]; given an
    array, the call raises [TypeError].  When [V] has length [N], the
    Hamiltonian is [T + diag V], entry by entry. *)
Theorem construction_potential :
  (forall (L : R) (N : Z) (m hbar dt : R) (pot : option (potential_arg R))
          (s : QuantumSimulator R),
      __init__ L N m hbar dt pot = Ok s ->
      ((pot = None /\ self_V s = repeat 0%R (Z.to_nat N)) \/
       (exists f, pot = Some (Callable f) /\ self_V s = f (self_x s))) /\
      (Z.of_nat (length (self_V s)) = N ->
       shape (self_H s) = (N, N) /\
       forall i j,
         entry (self_H s) i j =
         (entry (self_T s) i j +
          (if i =? j then nth (Z.to_nat i) (self_V s) 0 else 0))%R)) /\
  (forall (L : R) (N : Z) (m hbar dt : R) (a : list R),
      2 <= N -> L <> 0%R -> m <> 0%R ->
      __init__ L N m hbar dt (Some (Array a)) =
      Raise (TypeError "'numpy.ndarray' object is not callable")).
Proof.
  split.
  - intros L N m hbar dt pot s Hok.
    destruct (init_inversion L N m hbar dt pot s Hok)
      as (HN & HL & Hm & x & V & DV & H & Hx & HV & HDV & Hadd & ->).
    cbn [self_V self_x self_H self_T]. split.
    + destruct pot as [[f|a]|]; cbn in HV.
      * right. exists f. injection HV as <-. split; reflexivity.
      * discriminate.
      * left. unfold np_zeros in HV.
        destruct (N <? 0); [discriminate|]. injection HV as <-.
        split; reflexivity.
    + intros Hlen. rewrite (diags_potential V N Hlen) in HDV.
      injection HDV as <-. split.
      * destruct (madd_entry _ _ _ _ 0 0 Hadd) as [-> _]. reflexivity.
      * intros i j. apply (madd_entry _ _ _ _ i j Hadd).
  - intros L N m hbar dt a HN HL Hm.
    destruct (linspace_R L N HN HL) as (x & Hx & _).
    rewrite (init_core L N m hbar dt _ x HN HL Hm Hx). reflexivity.
Qed.

Lemma construction_potential_witness :
  exists s,
    __init__ 1%R 2 1%R 1%R 1%R (Some (Callable (map (fun v => v + 1)%R))) = Ok s /\
    self_V s = map (fun v => v + 1)%R (self_x s) /\
    entry (self_H s) 1 1 =
    (entry (self_T s) 1 1 + nth 1 (self_V s) 0)%R.
Proof.
  destruct (linspace_R 1%R 2) as (x & Hx & Hlen & _); [lia|lra|].
  assert (exists s, __init__ 1%R 2 1%R 1%R 1%R
                      (Some (Callable (map (fun v => v + 1)%R))) = Ok s)
    as [s Hs].
  { rewrite (init_ok 1%R 2 1%R 1%R 1%R _ x (map (fun v => v + 1)%R x));
      try lia; try lra; try assumption; try reflexivity.
    - eexists; reflexivity.
    - rewrite length_map, Hlen. reflexivity. }
  exists s. split; [exact Hs|].
  destruct construction_potential as [Hc _].
  destruct (Hc _ _ _ _ _ _ _ Hs) as [[[Hnone _]|(f & Hf & HV)] HH];
    [discriminate|].
  injection Hf as <-. split; [exact HV|].
  destruct HH as [_ HH].
  - rewrite HV, length_map. apply (init_grid_length _ _ _ _ _ _ _ Hs).
  - exact (HH 1 1).
Defined.

(** C8 fails as stated: a potential passed as an array is not stored, the
    constructor raises. *)
Lemma array_potential_rejected :
  __init__ 1%float 3 1%float 1%float 0.001%float
       (Some (Array [0%float; 0%float; 0%float])) =
  Raise (TypeError "'numpy.ndarray' object is not callable").
Proof. vm_compute. reflexivity. Qed.

(** C9. Scenario B.  On the grid of 500 uniformly spaced points over
    [0, 1], the barrier of height 50.0 and width 0.05 centred at 0.5 is
    50.0 at every grid point [x] with [0.475 < x < 0.525] and 0.0 at every
    other grid point: in binary64 these are the 24 points of index 238 to
    261.  In exact arithmetic the same holds on every grid. *)
Theorem barrier_scenario_B :
  (exists x : list float,
      np_linspace 0%float 1%float 500 = Ok x /\
      length x = 500%nat /\
      barrier_potential x 50%float 0.05%float 0.5%float =
      map (fun xi => if fltb 0.475%float xi && fltb xi 0.525%float
                     then 50%float else 0%float) x /\
      barrier_potential x 50%float 0.05%float 0.5%float =
      repeat 0%float 238 ++ repeat 50%float 24 ++ repeat 0%float 238) /\
  (forall x : list R,
      barrier_potential x 50%R (5 / 100)%R (1 / 2)%R =
      map (fun xi => if fltb (475 / 1000)%R xi && fltb xi (525 / 1000)%R
                     then 50%R else 0%R) x).
Proof.
  split.
  - eexists. split; [vm_compute; reflexivity|].
    split; [vm_compute; reflexivity|].
    split; vm_compute; reflexivity.
  - intros x. unfold barrier_potential. apply map_ext. intros xi.
    cbn [fsub fadd fdiv of_int fzero Num_R].
    replace (1 / 2 - 5 / 100 / 2)%R with (475 / 1000)%R by field.
    replace (1 / 2 + 5 / 100 / 2)%R with (525 / 1000)%R by field.
    reflexivity.
Qed.

(** C10. A zero norm.  The all-zero array (zeros of either sign, at any
    length) has the computed norm zero on every simulator whose [dx] is
    finite; and whenever the computed norm of the input is zero,
    [set_initial_wavefunction] raises nothing: it divides by the zero norm
    and installs a state of the input's length whose every real and
    imaginary part is infinite or not a number; the total probability of
    that state is not 1, so that the normalisation needs a nonzero
    norm. *)
Theorem zero_norm_installs_nonfinite_state :
  (forall (w : World float) (psi0 : list (complex float)),
      Forall (fun z => feqb (re z) fzero = true /\ feqb (im z) fzero = true)
             psi0 ->
      nonfinite (self_dx (self w)) = false ->
      feqb (norm_of psi0 (self_dx (self w))) fzero = true) /\
  (forall (w : World float) (psi0 : list (complex float)),
      feqb (norm_of psi0 (self_dx (self w))) fzero = true ->
      exists w' a,
        set_initial_wavefunction psi0 w = (Ok tt, w') /\
        self_psi (self w') = Some a /\
        length (deref (heap w') a) = length psi0 /\
        Forall (fun z => nonfinite (re z) = true /\ nonfinite (im z) = true)
               (deref (heap w') a) /\
        feqb (total_probability (deref (heap w') a) (self_dx (self w))) fone
        = false).
Proof.
  split; [intros w psi0; apply zero_array_norm|].
  intros w psi0 Hz.
  destruct (float_eqb_zero _ Hz) as [s Hs].
  eexists. exists (length (heap w)).
  split; [apply set_initial_wavefunction_run|].
  cbn [self heap self_psi set_history set_time set_psi].
  rewrite deref_old by (rewrite length_app; cbn; lia).
  rewrite deref_fresh.
  assert (Forall (fun z => nonfinite (re z) = true /\ nonfinite (im z) = true)
            (normalized psi0 (self_dx (self w)))) as Hall.
  { unfold normalized. apply Forall_map, Forall_forall. intros z _.
    rewrite (cdiv_zero_norm z _ s Hs). cbn [re im].
    split; apply nonfinite_div_zero; rewrite abs_spec, Hs; reflexivity. }
  split; [reflexivity|].
  split; [unfold normalized; apply length_map|].
  split; [exact Hall|].
  unfold total_probability.
  destruct psi0 as [|z0 psi0].
  - apply (zero_times_not_one _ _ false). exact np_sum_nil_float.
  - apply pinf_nan_times_not_one, np_sum_pinf_nan.
    + unfold abs2. apply Forall_map.
      revert Hall. apply Forall_impl. intros z [Hr Hi].
      apply pinf_nan_abs2; assumption.
    + unfold normalized, abs2. cbn. discriminate.
Qed.

Lemma zero_norm_installs_nonfinite_state_witness :
  let zeros :=
    [Cplx 0%float 0%float; Cplx (-0)%float 0%float; Cplx 0%float (-0)%float] in
  feqb (norm_of zeros (self_dx float_box)) fzero = true /\
  exists w',
    set_initial_wavefunction zeros float_world = (Ok tt, w') /\
    Forall (fun z => nonfinite (re z) = true /\ nonfinite (im z) = true)
           (deref (heap w') 0%nat).
Proof.
  intros zeros.
  destruct zero_norm_installs_nonfinite_state as [Hzero Hinst].
  assert (feqb (norm_of zeros (self_dx float_box)) fzero = true) as Hn.
  { apply (Hzero float_world zeros); [|reflexivity].
    repeat constructor. }
  split; [exact Hn|].
  destruct (Hinst float_world zeros Hn) as (w' & a & Hrun & Ha & _ & Hall & _).
  exists w'. split; [exact Hrun|].
  pose proof (set_initial_wavefunction_run zeros float_world) as E.
  rewrite E in Hrun. injection Hrun as <-.
  cbn in Ha. injection Ha as <-. exact Hall.
Defined.

(** * Further properties of the engine *)

Section StepFacts.

Context {F : Type} {num : Num F}.
Variable expm_action :
  matrix (complex F) -> list (complex F) -> list (complex F).
Hypothesis expm_action_length :
  forall A B, length (expm_action A B) = length B.

Lemma same_setup_refl (s : QuantumSimulator F) : same_setup s s.
Proof. repeat split. Qed.

Lemma same_setup_trans (s1 s2 s3 : QuantumSimulator F) :
  same_setup s1 s2 -> same_setup s2 s3 -> same_setup s1 s3.
Proof.
  unfold same_setup. intros H12 H23.
  decompose [and] H12. decompose [and] H23. repeat split; congruence.
Qed.

(** The outcomes of one [step], case by case. *)
Lemma step_cases (w : World F) :
  (exists e, step expm_action w = (Raise e, w)) \/
  (exists p next,
      self_psi (self w) = Some p /\
      step expm_action w =
      (Ok tt,
       mkWorld
         (set_history (self_history (self w) ++ [S (length (heap w))])
            (set_time (fadd (self_time (self w)) (self_dt (self w)))
               (set_psi (Some (length (heap w))) (self w))))
         ((heap w ++ [next]) ++ [next]))).
Proof.
  unfold step, bind, get_self; cbn.
  destruct (self_psi (self w)) as [p|] eqn:Hp; [|left; eexists; reflexivity].
  unfold read, lift, generator, pydiv; cbn.
  destruct (feqb (self_hbar (self w)) fzero); cbn;
    [left; eexists; reflexivity|].
  unfold expm_multiply.
  destruct (negb _); cbn; [left; eexists; reflexivity|].
  destruct (negb _); cbn; [left; eexists; reflexivity|].
  right. exists p. eexists. split; [reflexivity|].
  unfold alloc, modify, copy, read, bind; cbn.
  rewrite deref_fresh, length_app, Nat.add_1_r. reflexivity.
Qed.

Lemma step_same_setup (w : World F) :
  same_setup (self w) (self (snd (step expm_action w))).
Proof.
  destruct (step_cases w) as [[e He]|(p & next & _ & Hs)].
  - rewrite He. apply same_setup_refl.
  - rewrite Hs. cbn. repeat split.
Qed.

Lemma for_range_same_setup (n : nat) : forall w : World F,
  same_setup (self w) (self (snd (for_range n (step expm_action) w))).
Proof.
  induction n as [|n IH]; intros w; [apply same_setup_refl|].
  cbn [for_range]. unfold bind at 1.
  pose proof (step_same_setup w) as H1.
  destruct (step expm_action w) as [[[]|e] w1] eqn:Hs; cbn [snd] in *.
  - eapply same_setup_trans; [exact H1|apply IH].
  - exact H1.
Qed.

End StepFacts.

(** X1. A call of [step] that raises has modified nothing. *)
Theorem step_failure_is_atomic :
  forall (F : Type) (num : Num F)
         (expm_action : matrix (complex F) -> list (complex F) -> list (complex F))
         (w : World F) (e : exception),
    fst (step expm_action w) = Raise e ->
    snd (step expm_action w) = w.
Proof.
  intros F num expm_action w e He.
  destruct (step_cases expm_action w) as [[e' Hs]|(p & next & _ & Hs)];
    rewrite Hs in *; [reflexivity|discriminate].
Qed.

Lemma step_failure_is_atomic_witness :
  fst (step idle_action float_world) =
    Raise (ValueError "Initial wavefunction not set") /\
  snd (step idle_action float_world) = float_world.
Proof.
  assert (fst (step idle_action float_world) =
          Raise (ValueError "Initial wavefunction not set")) as He
      by reflexivity.
  split; [exact He|].
  exact (step_failure_is_atomic float Num_float idle_action float_world _ He).
Defined.

(** X2. Time evolution, by [step] or by [evolve] and whether it raises or
    not, leaves the configuration, the grid, the potential and the
    operators [T] and [H] as they were. *)
Theorem evolution_keeps_setup :
  forall (F : Type) (num : Num F)
         (expm_action : matrix (complex F) -> list (complex F) -> list (complex F))
         (w : World F) (total_time : F),
    same_setup (self w) (self (snd (step expm_action w))) /\
    same_setup (self w) (self (snd (evolve expm_action total_time w))).
Proof.
  intros F num expm_action w total_time. split.
  - apply step_same_setup.
  - unfold evolve, bind, get_self, lift; cbn.
    destruct (pydiv _ _) as [q|e]; cbn; [|apply same_setup_refl].
    destruct (to_int q) as [k|e]; cbn; [|apply same_setup_refl].
    apply for_range_same_setup.
Qed.

Section EvolveFacts.

Context {F : Type} {num : Num F}.
Variable expm_action :
  matrix (complex F) -> list (complex F) -> list (complex F).
Hypothesis expm_action_length :
  forall A B, length (expm_action A B) = length B.

(** A loop whose first iteration raises stops there. *)
Lemma for_range_raise (n : nat) (w : World F) (e : exception) :
  step expm_action w = (Raise e, w) ->
  for_range (S n) (step expm_action) w = (Raise e, w).
Proof. intros Hs. cbn [for_range]. unfold bind. rewrite Hs. reflexivity. Qed.

Lemma for_range_add (a b : nat) : forall w : World F,
  for_range (a + b) (step expm_action) w =
  bind (for_range a (step expm_action))
       (fun _ => for_range b (step expm_action)) w.
Proof.
  induction a as [|a IH]; intros w; [reflexivity|].
  cbn [Nat.add for_range]. unfold bind.
  destruct (step expm_action w) as [[[]|e] w1]; [|reflexivity].
  rewrite IH. unfold bind. reflexivity.
Qed.

(** [step] on a state whose length is not the grid's. *)
Lemma step_wrong_length (w : World F) (p : addr) :
  wf (self w) ->
  feqb (self_hbar (self w)) fzero = false ->
  self_psi (self w) = Some p ->
  Z.of_nat (length (deref (heap w) p)) <> self_N (self w) ->
  step expm_action w =
  (Raise (ValueError "shapes of matrices A and B are incompatible"), w).
Proof.
  intros [_ HH] Hhbar Hp Hlen.
  unfold step, bind, get_self; cbn. rewrite Hp.
  unfold read, lift, generator, pydiv; cbn. rewrite Hhbar; cbn.
  unfold expm_multiply. rewrite generator_with_shape, HH; cbn.
  rewrite Z.eqb_refl; cbn.
  destruct (self_N (self w) =? _) eqn:E; [apply Z.eqb_eq in E; lia|].
  reflexivity.
Qed.

(** [evolve] once the quotient and its integer part are known. *)
Lemma evolve_loop (total_time : F) (k : Z) (w : World F) :
  feqb (self_dt (self w)) fzero = false ->
  to_int (fdiv total_time (self_dt (self w))) = Ok k ->
  evolve expm_action total_time w =
  for_range (Z.to_nat k) (step expm_action) w.
Proof.
  intros Hdt Hk. unfold evolve, bind, get_self, lift, pydiv; cbn.
  rewrite Hdt, Hk. reflexivity.
Qed.

End EvolveFacts.

(** X3. A wavefunction whose length is not the grid's is installed without
    complaint, but it cannot be evolved: the next [step] raises scipy's
    shape error and changes nothing, and so does every [evolve] of at
    least one step; the history keeps its single entry. *)
Theorem wrong_length_state_cannot_evolve :
  forall (F : Type) (num : Num F)
         (expm_action : matrix (complex F) -> list (complex F) -> list (complex F))
         (w : World F) (psi0 : list (complex F)) (total_time : F) (k : Z),
    wf (self w) ->
    feqb (self_hbar (self w)) fzero = false ->
    feqb (self_dt (self w)) fzero = false ->
    Z.of_nat (length psi0) <> self_N (self w) ->
    to_int (fdiv total_time (self_dt (self w))) = Ok k ->
    0 < k ->
    let w0 := snd (set_initial_wavefunction psi0 w) in
    fst (set_initial_wavefunction psi0 w) = Ok tt /\
    step expm_action w0 =
      (Raise (ValueError "shapes of matrices A and B are incompatible"), w0) /\
    evolve expm_action total_time w0 =
      (Raise (ValueError "shapes of matrices A and B are incompatible"), w0) /\
    length (self_history (self w0)) = 1%nat.
Proof.
  intros F num expm_action w psi0 total_time k Hwf Hhbar Hdt Hlen Hk Hpos w0.
  subst w0. rewrite set_initial_wavefunction_run. cbn [fst snd].
  set (w0 := mkWorld _ _).
  assert (step expm_action w0 =
          (Raise (ValueError "shapes of matrices A and B are incompatible"), w0))
    as Hstep.
  { apply (step_wrong_length expm_action w0 (length (heap w))).
    - exact Hwf.
    - exact Hhbar.
    - reflexivity.
    - subst w0. cbn [heap self self_N set_history set_time set_psi].
      rewrite deref_old by (rewrite length_app; cbn; lia).
      rewrite deref_fresh. unfold normalized. rewrite length_map. exact Hlen. }
  split; [reflexivity|]. split; [exact Hstep|]. split; [|reflexivity].
  rewrite (evolve_loop expm_action total_time k w0 Hdt Hk).
  destruct (Z.to_nat k) as [|n] eqn:En; [lia|].
  apply for_range_raise. exact Hstep.
Qed.

Lemma wrong_length_state_cannot_evolve_witness :
  let w0 := snd (set_initial_wavefunction [Cplx 1%float 0%float] float_world) in
  self_N float_box = 3 /\
  evolve idle_action 0.5%float w0 =
    (Raise (ValueError "shapes of matrices A and B are incompatible"), w0).
Proof.
  split; [reflexivity|].
  apply (wrong_length_state_cannot_evolve float Num_float idle_action
           float_world [Cplx 1%float 0%float] 0.5%float 5000).
  - split; reflexivity.
  - vm_compute; reflexivity.
  - vm_compute; reflexivity.
  - cbn. lia.
  - vm_compute; reflexivity.
  - lia.
Defined.

(** X4. Bulk evolution before any wavefunction is installed: when the
    truncated quotient is at least 1 the first step raises the engine's
    [ValueError]; when it is zero or negative [evolve] returns normally
    although nothing is installed.  The state is unchanged either way. *)
Theorem evolve_uninitialized :
  forall (F : Type) (num : Num F)
         (expm_action : matrix (complex F) -> list (complex F) -> list (complex F))
         (w : World F) (total_time : F) (k : Z),
    self_psi (self w) = None ->
    feqb (self_dt (self w)) fzero = false ->
    to_int (fdiv total_time (self_dt (self w))) = Ok k ->
    evolve expm_action total_time w =
    (if 0 <? k then Raise (ValueError "Initial wavefunction not set")
     else Ok tt, w).
Proof.
  intros F num expm_action w total_time k Hn Hdt Hk.
  rewrite (evolve_loop expm_action total_time k w Hdt Hk).
  destruct (0 <? k) eqn:E.
  - apply Z.ltb_lt in E. destruct (Z.to_nat k) as [|n] eqn:En; [lia|].
    apply for_range_raise. apply step_uninitialized. exact Hn.
  - apply Z.ltb_ge in E. replace (Z.to_nat k) with 0%nat by lia. reflexivity.
Qed.

Lemma evolve_uninitialized_witness :
  evolve idle_action 0.5%float float_world =
    (Raise (ValueError "Initial wavefunction not set"), float_world) /\
  evolve idle_action 0.00005%float float_world = (Ok tt, float_world) /\
  evolve idle_action (-1)%float float_world = (Ok tt, float_world).
Proof.
  split; [|split].
  - apply (evolve_uninitialized float Num_float idle_action float_world
             0.5%float 5000); vm_compute; reflexivity.
  - apply (evolve_uninitialized float Num_float idle_action float_world
             0.00005%float 0); vm_compute; reflexivity.
  - apply (evolve_uninitialized float Num_float idle_action float_world
             (-1)%float (-10000)); vm_compute; reflexivity.
Defined.

Section ClockAndHistory.

Context {F : Type} {num : Num F}.
Variable expm_action :
  matrix (complex F) -> list (complex F) -> list (complex F).
Hypothesis expm_action_length :
  forall A B, length (expm_action A B) = length B.

(** A successful [step] on a tidy state: what it appends and what it keeps. *)
Lemma step_tidy (w w' : World F) :
  tidy w ->
  step expm_action w = (Ok tt, w') ->
  tidy w' /\
  self_history (self w') = self_history (self w) ++ [S (length (heap w))] /\
  length (heap w') = S (S (length (heap w))) /\
  (forall p, (p < length (heap w))%nat -> deref (heap w') p = deref (heap w) p).
Proof.
  intros (Hall & Hnd & p & q & older & Hp & Hlt & Hnin & Hlast & Hsame) Hs.
  destruct (step_cases expm_action w) as [[e He]|(p' & next & _ & Hs')].
  { rewrite He in Hs. discriminate. }
  rewrite Hs' in Hs. injection Hs as <-.
  unfold tidy, allocated.
  cbn [self heap self_history self_psi set_history set_time set_psi].
  assert (forall r, (r < length (heap w))%nat ->
            deref ((heap w ++ [next]) ++ [next]) r = deref (heap w) r) as Hold.
  { intros r Hr. rewrite !deref_old; [reflexivity|exact Hr|].
    rewrite length_app; cbn; lia. }
  assert (~ In (S (length (heap w))) (self_history (self w))) as Hfresh.
  { intros Hin. unfold allocated in Hall. rewrite Forall_forall in Hall.
    specialize (Hall _ Hin). lia. }
  assert (~ In (length (heap w)) (self_history (self w))) as Hfresh'.
  { intros Hin. unfold allocated in Hall. rewrite Forall_forall in Hall.
    specialize (Hall _ Hin). lia. }
  split; [|split; [reflexivity|split; [rewrite !length_app; cbn; lia|exact Hold]]].
  split; [|split].
  - apply Forall_app. split.
    + unfold allocated in Hall. revert Hall. apply Forall_impl.
      intros r Hr. cbn in *. rewrite !length_app. cbn. lia.
    + constructor; [cbn beta; rewrite !length_app; cbn; lia|constructor].
  - apply NoDup_app; [exact Hnd|repeat constructor; intros []|].
    intros r Hin [<-|[]]. exact (Hfresh Hin).
  - exists (length (heap w)), (S (length (heap w))), (self_history (self w)).
    split; [reflexivity|]. split; [rewrite !length_app; cbn; lia|].
    split.
    + intros Hin. apply in_app_or in Hin as [Hin|[Heq|[]]];
        [exact (Hfresh' Hin)|lia].
    + split; [reflexivity|].
      replace (S (length (heap w))) with (length (heap w ++ [next]))
        by (rewrite length_app; cbn; lia).
      rewrite deref_fresh.
      rewrite deref_old by (rewrite length_app; cbn; lia).
      rewrite deref_fresh. reflexivity.
Qed.

Lemma steps_tidy (n : nat) : forall w w' : World F,
  tidy w ->
  for_range n (step expm_action) w = (Ok tt, w') ->
  tidy w' /\
  (exists fresh,
      self_history (self w') = self_history (self w) ++ fresh /\
      length fresh = n /\
      Forall (fun p => (length (heap w) <= p)%nat) fresh) /\
  (forall p, (p < length (heap w))%nat -> deref (heap w') p = deref (heap w) p).
Proof.
  induction n as [|n IH]; intros w w' Ht Hrun.
  - cbn in Hrun. injection Hrun as <-. split; [exact Ht|].
    split; [|reflexivity]. exists []. rewrite app_nil_r. repeat split.
    constructor.
  - cbn [for_range] in Hrun. unfold bind in Hrun.
    destruct (step expm_action w) as [[[]|e] w1] eqn:Hs; [|discriminate].
    destruct (step_tidy w w1 Ht Hs) as (Ht1 & Hh1 & Hlen1 & Hold1).
    destruct (IH w1 w' Ht1 Hrun) as (Ht' & (fresh & Hh & Hl & Hf) & Hold).
    split; [exact Ht'|]. split.
    + exists (S (length (heap w)) :: fresh). rewrite Hh, Hh1, <- app_assoc.
      split; [reflexivity|]. split; [cbn; lia|].
      constructor; [lia|]. revert Hf. apply Forall_impl. intros r Hr. lia.
    + intros p Hp. rewrite Hold by lia. apply Hold1. exact Hp.
Qed.

Lemma set_initial_tidy (psi0 : list (complex F)) (w : World F) :
  tidy (snd (set_initial_wavefunction psi0 w)).
Proof.
  rewrite set_initial_wavefunction_run. cbn [snd].
  unfold tidy, allocated.
  cbn [self heap self_history self_psi set_history set_time set_psi].
  split; [|split].
  - constructor; [cbn beta; rewrite !length_app; cbn; lia|constructor].
  - repeat constructor. intros [].
  - exists (length (heap w)), (S (length (heap w))), [].
    split; [reflexivity|]. split; [rewrite !length_app; cbn; lia|].
    split; [intros [Heq|[]]; lia|]. split; [reflexivity|].
    replace (S (length (heap w)))
      with (length (heap w ++ [normalized psi0 (self_dx (self w))]))
      by (rewrite length_app; cbn; lia).
    rewrite deref_fresh.
    rewrite deref_old by (rewrite length_app; cbn; lia).
    rewrite deref_fresh. reflexivity.
Qed.

End ClockAndHistory.

(** X5. The history is append-only and its snapshots are independent
    copies.  From an installed state, [n] successful steps append exactly
    [n] new snapshots after the old ones, in arrays that did not exist
    before; every array that existed before keeps its content; and
    afterwards the history still holds pairwise different arrays, none of
    them the current state's array, the last one holding the current
    state's content. *)
Theorem history_is_append_only :
  forall (F : Type) (num : Num F)
         (expm_action : matrix (complex F) -> list (complex F) -> list (complex F))
         (w : World F) (psi0 : list (complex F)) (n : nat) (w' : World F),
    let w0 := snd (set_initial_wavefunction psi0 w) in
    steps expm_action n w0 = (Ok tt, w') ->
    tidy w0 /\ tidy w' /\
    (exists fresh,
        self_history (self w') = self_history (self w0) ++ fresh /\
        length fresh = n /\
        Forall (fun p => (length (heap w0) <= p)%nat) fresh) /\
    (forall p, (p < length (heap w0))%nat ->
               deref (heap w') p = deref (heap w0) p).
Proof.
  intros F num expm_action w psi0 n w' w0 Hrun.
  pose proof (set_initial_tidy psi0 w) as Ht0. fold w0 in Ht0.
  split; [exact Ht0|].
  apply (steps_tidy expm_action n w0 w' Ht0 Hrun).
Qed.

Lemma history_is_append_only_witness :
  exists w',
    steps idle_action 2
      (snd (set_initial_wavefunction float_psi0 float_world)) = (Ok tt, w') /\
    self_history (self w') = [1; 3; 5]%nat /\
    self_psi (self w') = Some 4%nat /\
    tidy w'.
Proof.
  eexists. split; [vm_compute; reflexivity|].
  split; [reflexivity|]. split; [reflexivity|].
  refine (proj1 (proj2 (history_is_append_only float Num_float idle_action
                          float_world float_psi0 2 _ _))).
  vm_compute. reflexivity.
Defined.

Section ClockFacts.

Context {F : Type} {num : Num F}.
Variable expm_action :
  matrix (complex F) -> list (complex F) -> list (complex F).
Hypothesis expm_action_length :
  forall A B, length (expm_action A B) = length B.

(** [n] steps add the time step to the clock [n] times, one addition
    after the other. *)
Lemma steps_clock (n : nat) : forall w : World F,
  ready w ->
  exists w', for_range n (step expm_action) w = (Ok tt, w') /\ ready w' /\
    self_dt (self w') = self_dt (self w) /\
    self_time (self w') =
      Nat.iter n (fun t => fadd t (self_dt (self w))) (self_time (self w)) /\
    length (self_history (self w')) = (n + length (self_history (self w)))%nat.
Proof.
  induction n as [|n IH]; intros w Hr.
  - exists w. split; [reflexivity|]. split; [exact Hr|].
    split; [reflexivity|]. split; reflexivity.
  - destruct (step_ready expm_action expm_action_length w Hr)
      as (w1 & Hs & Hr1 & Hl1 & Hd1 & Ht1).
    destruct (IH w1 Hr1) as (w2 & Hf & Hr2 & Hd2 & Ht2 & Hl2).
    exists w2. cbn [for_range]. unfold bind at 1. rewrite Hs.
    split; [exact Hf|]. split; [exact Hr2|]. split; [congruence|].
    split; [|lia].
    rewrite Ht2, Ht1, Hd1. rewrite Nat.iter_succ_r. reflexivity.
Qed.

End ClockFacts.

(** X6. Clock law.  After a wavefunction of the grid's length has been
    installed the clock reads zero; [n] steps leave it at the result of
    adding [dt] to it [n] times, and so does [evolve] with [n] the
    truncated quotient.  The clock is this repeated sum, not [n * dt]: in
    binary64, with [dt = 0.1], [evolve(1.5)] performs 15 steps and leaves
    the clock at 1.5000000000000002, beyond the time asked for. *)
Theorem clock_law :
  (forall (F : Type) (num : Num F)
          (expm_action : matrix (complex F) -> list (complex F) -> list (complex F))
          (w : World F) (psi0 : list (complex F)) (total_time : F) (k : Z)
          (n : nat),
      (forall A B, length (expm_action A B) = length B) ->
      wf (self w) ->
      feqb (self_hbar (self w)) fzero = false ->
      feqb (self_dt (self w)) fzero = false ->
      Z.of_nat (length psi0) = self_N (self w) ->
      to_int (fdiv total_time (self_dt (self w))) = Ok k ->
      let tick (t : F) := fadd t (self_dt (self w)) in
      let w0 := snd (set_initial_wavefunction psi0 w) in
      self_time (self w0) = fzero /\
      (exists w1,
          steps expm_action n w0 = (Ok tt, w1) /\
          self_time (self w1) = Nat.iter n tick fzero) /\
      (exists w1,
          evolve expm_action total_time w0 = (Ok tt, w1) /\
          self_time (self w1) = Nat.iter (Z.to_nat k) tick fzero)) /\
  (forall (expm_action :
             matrix (complex float) -> list (complex float) -> list (complex float))
          (h : list (list (complex float))) (psi0 : list (complex float)),
      (forall A B, length (expm_action A B) = length B) ->
      length psi0 = 3%nat ->
      exists w1,
        evolve expm_action 1.5%float
          (snd (set_initial_wavefunction psi0 (mkWorld tenth_box h)))
        = (Ok tt, w1) /\
        length (self_history (self w1)) = 16%nat /\
        self_time (self w1) = 1.5000000000000002%float /\
        fltb 1.5%float (self_time (self w1)) = true).
Proof.
  assert (forall (F : Type) (num : Num F)
            (expm_action : matrix (complex F) -> list (complex F) -> list (complex F))
            (w : World F) (psi0 : list (complex F)) (n : nat),
            (forall A B, length (expm_action A B) = length B) ->
            wf (self w) ->
            feqb (self_hbar (self w)) fzero = false ->
            Z.of_nat (length psi0) = self_N (self w) ->
            exists w1,
              for_range n (step expm_action)
                (snd (set_initial_wavefunction psi0 w)) = (Ok tt, w1) /\
              self_time (self w1) =
                Nat.iter n (fun t => fadd t (self_dt (self w))) fzero /\
              length (self_history (self w1)) = S n) as Hsteps.
  { intros F num expm_action w psi0 n Hlen Hwf Hhbar Hpsi.
    pose proof (set_initial_ready psi0 w Hwf Hhbar Hpsi) as Hr.
    destruct (steps_clock expm_action Hlen n _ Hr)
      as (w1 & Hrun & _ & _ & Ht & Hl).
    exists w1. split; [exact Hrun|].
    rewrite set_initial_wavefunction_run in Ht, Hl. cbn in Ht, Hl.
    split; [exact Ht|]. rewrite Hl. lia. }
  split.
  - intros F num expm_action w psi0 total_time k n Hlen Hwf Hhbar Hdt Hpsi Hk
           tick w0.
    split; [subst w0; rewrite set_initial_wavefunction_run; reflexivity|].
    split.
    + destruct (Hsteps F num expm_action w psi0 n Hlen Hwf Hhbar Hpsi)
        as (w1 & Hrun & Ht & _).
      exists w1. split; [exact Hrun|exact Ht].
    + destruct (Hsteps F num expm_action w psi0 (Z.to_nat k) Hlen Hwf Hhbar Hpsi)
        as (w1 & Hrun & Ht & _).
      exists w1. split; [|exact Ht].
      rewrite (evolve_loop expm_action total_time k w0); [exact Hrun| |].
      * subst w0. rewrite set_initial_wavefunction_run. exact Hdt.
      * subst w0. rewrite set_initial_wavefunction_run. exact Hk.
  - intros expm_action h psi0 Hlen Hpsi.
    destruct (Hsteps float Num_float expm_action (mkWorld tenth_box h) psi0
                15%nat Hlen)
      as (w1 & Hrun & Ht & Hl).
    + split; reflexivity.
    + reflexivity.
    + cbn [self]. rewrite Hpsi. reflexivity.
    + exists w1. split.
      * rewrite (evolve_loop expm_action 1.5%float 15);
          [exact Hrun| |];
          rewrite set_initial_wavefunction_run; vm_compute; reflexivity.
      * split; [exact Hl|]. rewrite Ht. split; vm_compute; reflexivity.
Qed.

Lemma clock_law_witness :
  exists w1,
    evolve idle_action 1.5%float
      (snd (set_initial_wavefunction float_psi0 (mkWorld tenth_box [])))
    = (Ok tt, w1) /\
    self_time (self w1) = 1.5000000000000002%float.
Proof.
  destruct clock_law as [_ Hf].
  destruct (Hf idle_action [] float_psi0) as (w1 & Hrun & _ & Ht & _).
  - reflexivity.
  - reflexivity.
  - exists w1. split; [exact Hrun|exact Ht].
Defined.

(** X7. Splitting an evolution.  From a state that can be stepped,
    evolving for [t1] and then for [t2] performs the steps of the first
    truncated quotient and then those of the second, each call dropping
    its own remainder.  This need not be what one call for [t1 + t2]
    performs: in binary64, with [dt = 0.0001], [evolve(0.1)] followed by
    [evolve(0.5)] performs 6000 steps and [evolve(0.1 + 0.5)] 5999. *)
Theorem evolve_in_two_parts :
  (forall (F : Type) (num : Num F)
          (expm_action : matrix (complex F) -> list (complex F) -> list (complex F))
          (w : World F) (t1 t2 : F) (k1 k2 : Z),
      (forall A B, length (expm_action A B) = length B) ->
      ready w ->
      feqb (self_dt (self w)) fzero = false ->
      to_int (fdiv t1 (self_dt (self w))) = Ok k1 ->
      to_int (fdiv t2 (self_dt (self w))) = Ok k2 ->
      exists w1 w2,
        evolve expm_action t1 w = (Ok tt, w1) /\
        evolve expm_action t2 w1 = (Ok tt, w2) /\
        steps expm_action (Z.to_nat k1 + Z.to_nat k2) w = (Ok tt, w2) /\
        length (self_history (self w2)) =
        (Z.to_nat k1 + Z.to_nat k2 + length (self_history (self w)))%nat) /\
  (forall (expm_action :
             matrix (complex float) -> list (complex float) -> list (complex float))
          (h : list (list (complex float))) (psi0 : list (complex float)),
      (forall A B, length (expm_action A B) = length B) ->
      length psi0 = 3%nat ->
      let w0 := snd (set_initial_wavefunction psi0 (mkWorld float_box h)) in
      exists w1 w2 w3,
        evolve expm_action 0.1%float w0 = (Ok tt, w1) /\
        evolve expm_action 0.5%float w1 = (Ok tt, w2) /\
        evolve expm_action (0.1 + 0.5)%float w0 = (Ok tt, w3) /\
        Z.of_nat (length (self_history (self w2))) = 6001 /\
        Z.of_nat (length (self_history (self w3))) = 6000).
Proof.
  assert (forall (F : Type) (num : Num F)
            (expm_action : matrix (complex F) -> list (complex F) -> list (complex F))
            (w : World F) (t1 t2 : F) (k1 k2 : Z),
            (forall A B, length (expm_action A B) = length B) ->
            ready w ->
            feqb (self_dt (self w)) fzero = false ->
            to_int (fdiv t1 (self_dt (self w))) = Ok k1 ->
            to_int (fdiv t2 (self_dt (self w))) = Ok k2 ->
            exists w1 w2,
              evolve expm_action t1 w = (Ok tt, w1) /\
              evolve expm_action t2 w1 = (Ok tt, w2) /\
              steps expm_action (Z.to_nat k1 + Z.to_nat k2) w = (Ok tt, w2) /\
              length (self_history (self w2)) =
              (Z.to_nat k1 + Z.to_nat k2 + length (self_history (self w)))%nat)
    as Hgen.
  { intros F num expm_action w t1 t2 k1 k2 Hlen Hr Hdt Hk1 Hk2.
    destruct (for_range_step expm_action Hlen (Z.to_nat k1) w Hr)
      as (w1 & Hrun1 & Hr1 & Hl1 & Hd1).
    destruct (for_range_step expm_action Hlen (Z.to_nat k2) w1 Hr1)
      as (w2 & Hrun2 & _ & Hl2 & _).
    exists w1, w2.
    split; [rewrite (evolve_loop expm_action t1 k1 w Hdt Hk1); exact Hrun1|].
    split.
    { rewrite (evolve_loop expm_action t2 k2 w1); [exact Hrun2| |];
        rewrite Hd1; assumption. }
    split; [|lia].
    unfold steps. rewrite for_range_add. unfold bind. rewrite Hrun1.
    exact Hrun2. }
  split; [exact Hgen|].
  intros expm_action h psi0 Hlen Hpsi w0.
  assert (ready w0) as Hr.
  { apply set_initial_ready; [split; reflexivity|reflexivity|].
    cbn [self]. rewrite Hpsi. reflexivity. }
  assert (length (self_history (self w0)) = 1%nat /\
          self_dt (self w0) = 0.0001%float) as [Hh0 Hd0].
  { subst w0. rewrite set_initial_wavefunction_run. split; reflexivity. }
  destruct (Hgen float Num_float expm_action w0 0.1%float 0.5%float 1000 5000
              Hlen Hr)
    as (w1 & w2 & E1 & E2 & _ & Hl2);
    try (rewrite Hd0; vm_compute; reflexivity).
  destruct (for_range_step expm_action Hlen (Z.to_nat 5999) w0 Hr)
    as (w3 & Hrun3 & _ & Hl3 & _).
  exists w1, w2, w3.
  split; [exact E1|]. split; [exact E2|]. split.
  - rewrite (evolve_loop expm_action (0.1 + 0.5)%float 5999 w0);
      [exact Hrun3| |]; rewrite Hd0; vm_compute; reflexivity.
  - rewrite Hl2, Hl3, Hh0. split; lia.
Qed.

Lemma evolve_in_two_parts_witness :
  let w0 := snd (set_initial_wavefunction float_psi0 float_world) in
  exists w1 w2 w3,
    evolve idle_action 0.1%float w0 = (Ok tt, w1) /\
    evolve idle_action 0.5%float w1 = (Ok tt, w2) /\
    evolve idle_action (0.1 + 0.5)%float w0 = (Ok tt, w3) /\
    Z.of_nat (length (self_history (self w2))) = 6001 /\
    Z.of_nat (length (self_history (self w3))) = 6000.
Proof.
  destruct evolve_in_two_parts as [_ Hf].
  apply (Hf idle_action [] float_psi0); reflexivity.
Defined.

(** X8. Time arguments [evolve] cannot use, in binary64: a zero time step
    raises [ZeroDivisionError]; a total time that is not a number raises
    [ValueError] from [int()]; an infinite total time over a finite step
    raises [OverflowError].  Nothing is modified in any of these cases,
    whether or not a wavefunction is installed. *)
Theorem evolve_bad_times :
  forall (expm_action :
            matrix (complex float) -> list (complex float) -> list (complex float))
         (w : World float) (total_time : float),
    (feqb (self_dt (self w)) fzero = true ->
     evolve expm_action total_time w = (Raise ZeroDivisionError, w)) /\
    (feqb (self_dt (self w)) fzero = false ->
     Prim2SF total_time = S754_nan ->
     evolve expm_action total_time w =
     (Raise (ValueError "cannot convert float NaN to integer"), w)) /\
    (feqb (self_dt (self w)) fzero = false ->
     (exists s, Prim2SF total_time = S754_infinity s) ->
     (exists s m e, Prim2SF (self_dt (self w)) = S754_finite s m e) ->
     evolve expm_action total_time w = (Raise OverflowError, w)).
Proof.
  intros expm_action w total_time. split; [|split].
  - intros Hz. unfold evolve, bind, get_self, lift, pydiv; cbn.
    unfold feqb, fzero, Num_float in Hz. rewrite Hz. reflexivity.
  - intros Hnz Hnan. unfold evolve, bind, get_self, lift, pydiv; cbn.
    unfold feqb, fzero, Num_float in Hnz. rewrite Hnz. cbn.
    unfold float_to_int. rewrite div_spec, Hnan. reflexivity.
  - intros Hnz [s Hinf] (s' & m & e & Hfin).
    unfold evolve, bind, get_self, lift, pydiv; cbn.
    unfold feqb, fzero, Num_float in Hnz. rewrite Hnz. cbn.
    unfold float_to_int. rewrite div_spec, Hinf, Hfin. reflexivity.
Qed.

Lemma evolve_bad_times_witness :
  evolve idle_action PrimFloat.nan float_world =
    (Raise (ValueError "cannot convert float NaN to integer"), float_world) /\
  evolve idle_action PrimFloat.infinity float_world =
    (Raise OverflowError, float_world).
Proof.
  destruct (evolve_bad_times idle_action float_world PrimFloat.nan)
    as (_ & Hnan & _).
  destruct (evolve_bad_times idle_action float_world PrimFloat.infinity)
    as (_ & _ & Hinf).
  split.
  - apply Hnan; vm_compute; reflexivity.
  - apply Hinf; [vm_compute; reflexivity|exists false; reflexivity|].
    vm_compute. do 3 eexists. reflexivity.
Defined.



(** X11. The position expectation of a state whose length is not the
    grid's.  When the installed state has neither the grid's length nor
    length 1 (and the grid has more than one point), the product with the
    grid cannot be broadcast: [expectation_position] raises [ValueError] and
    modifies nothing.  A one-element state raises nothing: it is broadcast
    over the whole grid. *)
Theorem expectation_position_wrong_length :
  forall (F : Type) (num : Num F) (w : World F) (p : addr),
    self_psi (self w) = Some p ->
    length (self_x (self w)) <> length (deref (heap w) p) ->
    (length (self_x (self w)) <> 1%nat ->
     length (deref (heap w) p) <> 1%nat ->
     expectation_position w =
     (Raise (ValueError "operands could not be broadcast together"), w)) /\
    (length (self_x (self w)) <> 1%nat ->
     forall z, deref (heap w) p = [z] ->
     expectation_position w =
     (Ok (fmul (np_sum (map (fun u => fmul u (fsquare (cabs z)))
                            (self_x (self w))))
               (self_dx (self w))), w)).
Proof.
  intros F num w p Hp Hne.
  assert (Nat.eqb (length (self_x (self w)))
                  (length (abs2 (deref (heap w) p))) = false) as Hneq.
  { apply Nat.eqb_neq. unfold abs2. rewrite length_map. exact Hne. }
  split.
  - intros Hx1 Hp1.
    unfold expectation_position, probability_density, bind, get_self, read,
      ret, lift. cbn. rewrite Hp. cbn.
    unfold np_mul. rewrite Hneq.
    destruct (self_x (self w)) as [|u [|u' x]]; cbn in Hx1; try congruence;
      destruct (deref (heap w) p) as [|z [|z' a]]; cbn in Hp1;
      try congruence; reflexivity.
  - intros Hx1 z Hz.
    unfold expectation_position, probability_density, bind, get_self, read,
      ret, lift. cbn. rewrite Hp. cbn.
    unfold np_mul. rewrite Hneq. rewrite Hz. cbn [abs2 map].
    destruct (self_x (self w)) as [|u [|u' x]]; cbn in Hx1; try congruence;
      reflexivity.
Qed.

Lemma expectation_position_wrong_length_witness :
  let w0 := snd (set_initial_wavefunction
                   [Cplx 1%float 0%float; Cplx 0%float 1%float] float_world) in
  length (self_x float_box) = 3%nat /\
  expectation_position w0 =
    (Raise (ValueError "operands could not be broadcast together"), w0).
Proof.
  split; [reflexivity|].
  apply (expectation_position_wrong_length float Num_float
           (snd (set_initial_wavefunction
                   [Cplx 1%float 0%float; Cplx 0%float 1%float] float_world))
           0%nat).
  - reflexivity.
  - vm_compute. discriminate.
  - vm_compute. discriminate.
  - vm_compute. discriminate.
Defined.

Section UpdateComposition.

Context {F : Type} {num : Num F}.

(** What [update_potential] can have changed, raising or not. *)
Lemma update_potential_changes (arg : potential_arg F) (w : World F) :
  wf (self w) ->
  exists H' U',
    snd (update_potential arg w) =
    mkWorld
      (mkSim (self_L (self w)) (self_N (self w)) (self_m (self w))
             (self_hbar (self w)) (self_dt (self w)) (self_dx (self w))
             (self_x (self w)) (potential_value arg (self w))
             (self_T (self w)) H' U'
             (self_psi (self w)) (self_time (self w))
             (self_history (self w)))
      (heap w) /\
    shape H' = (self_N (self w), self_N (self w)).
Proof.
  intros [HT HH].
  unfold update_potential, bind, get_self, modify, lift; cbn.
  destruct (diags _ _ _) as [DV|e]; cbn.
  2:{ exists (self_H (self w)), (self_U_matrix (self w)).
      split; [reflexivity|exact HH]. }
  unfold madd. destruct (_ && _); cbn.
  - eexists. exists None. split; [reflexivity|exact HT].
  - exists (self_H (self w)), (self_U_matrix (self w)).
    split; [reflexivity|exact HH].
Qed.

End UpdateComposition.

(** X13. The last potential wins.  After any update, a further update with
    a potential of the grid's length leaves exactly the state that this
    last update alone would have left: the Hamiltonian is rebuilt from [T]
    each time, and nothing of an earlier potential remains in it, even if
    the earlier update raised. *)
Theorem update_potential_last_wins :
  forall (F : Type) (num : Num F) (w : World F) (a b : potential_arg F),
    wf (self w) ->
    Z.of_nat (length (potential_value b (self w))) = self_N (self w) ->
    update_potential b (snd (update_potential a w)) = update_potential b w.
Proof.
  intros F num w a b Hwf Hlen.
  destruct (update_potential_changes a w Hwf) as (H' & U' & Hw1 & Hshape).
  assert (potential_value b (self (snd (update_potential a w))) =
          potential_value b (self w)) as Hval.
  { rewrite Hw1. destruct b; reflexivity. }
  rewrite (update_potential_run b w Hwf Hlen).
  rewrite (update_potential_run b (snd (update_potential a w))).
  - rewrite Hval. rewrite Hw1. reflexivity.
  - rewrite Hw1. split; [apply Hwf|exact Hshape].
  - rewrite Hval. rewrite Hw1. exact Hlen.
Qed.

Lemma update_potential_last_wins_witness :
  update_potential (Array [3%R; 4%R])
    (snd (update_potential (Array [7%R]) real_world))
  = update_potential (Array [3%R; 4%R]) real_world.
Proof.
  apply (update_potential_last_wins R Num_R real_world
           (Array [7%R]) (Array [3%R; 4%R])).
  - split; reflexivity.
  - reflexivity.
Defined.

(** X14. The operators are symmetric.  In exact arithmetic, the kinetic
    operator of every constructed simulator is symmetric, and so is its
    Hamiltonian, at construction and after every update with a potential
    of the grid's length. *)
Theorem operators_are_symmetric :
  forall (L : R) (N : Z) (m hbar dt : R) (pot : option (potential_arg R))
         (s : QuantumSimulator R) (h : list (list (complex R)))
         (arg : potential_arg R) (i j : Z),
    __init__ L N m hbar dt pot = Ok s ->
    Z.of_nat (length (self_V s)) = N ->
    Z.of_nat (length (potential_value arg s)) = N ->
    0 <= i < N -> 0 <= j < N ->
    entry (self_T s) i j = entry (self_T s) j i /\
    entry (self_H s) i j = entry (self_H s) j i /\
    entry (self_H (self (snd (update_potential arg (mkWorld s h))))) i j =
    entry (self_H (self (snd (update_potential arg (mkWorld s h))))) j i.
Proof.
  intros L N m hbar dt pot s h arg i j Hok HV Harg Hi Hj.
  destruct (init_inversion L N m hbar dt pot s Hok)
    as (HN & HL & Hm & x & V & DV & H & Hx & _ & HDV & Hadd & ->).
  cbn [self_V] in HV.
  rewrite (diags_potential V N HV) in HDV. injection HDV as <-.
  assert (entry (mscale (- (hbar * hbar) /
                           (2 * m * (L / IZR (N - 1) * (L / IZR (N - 1)))))%R
                   (Matrix (N, N) (stencil N))) i j =
          entry (mscale (- (hbar * hbar) /
                           (2 * m * (L / IZR (N - 1) * (L / IZR (N - 1)))))%R
                   (Matrix (N, N) (stencil N))) j i) as HT.
  { rewrite !stencil_entry by assumption.
    rewrite (Z.eqb_sym j i).
    replace (Z.abs (j - i)) with (Z.abs (i - j)) by lia. reflexivity. }
  assert (forall v : list R,
             (if i =? j then nth (Z.to_nat i) v 0%R else 0%R) =
             (if j =? i then nth (Z.to_nat j) v 0%R else 0%R)) as Hd.
  { intros v. rewrite (Z.eqb_sym j i).
    destruct (i =? j) eqn:E; [apply Z.eqb_eq in E; subst; reflexivity|].
    reflexivity. }
  cbn [self_T self_H].
  split; [exact HT|]. split.
  - destruct (madd_entry _ _ _ V i j Hadd) as [_ ->].
    destruct (madd_entry _ _ _ V j i Hadd) as [_ ->].
    rewrite HT, Hd. reflexivity.
  - rewrite update_potential_run.
    + cbn [snd self self_H set_U_matrix set_H set_V self_T self_N].
      rewrite !entry_rebuilt, HT, Hd. reflexivity.
    + split; [reflexivity|]. cbn [self self_H self_N].
      destruct (madd_entry _ _ _ V i j Hadd) as [-> _]. reflexivity.
    + exact Harg.
Qed.

Lemma operators_are_symmetric_witness :
  entry (self_H real_box) 0 1 = entry (self_H real_box) 1 0 /\
  entry (self_T real_box) 0 1 = entry (self_T real_box) 1 0.
Proof.
  destruct (operators_are_symmetric 1%R 2 1%R 1%R (1 / 1000)%R None
              real_box [] (Array [3%R; 4%R]) 0 1)
    as (HT & HH & _); try reflexivity; try lia.
  - exact real_box_constructed.
  - split; [exact HH|exact HT].
Defined.

(** X15. The single barrier.  The array has the grid's length and holds
    nothing but the height and zero.  In exact arithmetic a width that is
    zero or negative gives the flat potential of [infinite_well]. *)
Theorem barrier_potential_shape :
  (forall (F : Type) (num : Num F) (x : list F) (h wd c : F),
      length (barrier_potential x h wd c) = length x /\
      Forall (fun v => v = h \/ v = fzero) (barrier_potential x h wd c)) /\
  (forall (x : list R) (h wd c : R),
      (wd <= 0)%R -> barrier_potential x h wd c = infinite_well x).
Proof.
  split.
  - intros F num x h wd c. unfold barrier_potential. split.
    + apply length_map.
    + apply Forall_map, Forall_forall. intros xi _.
      destruct (_ && _); [left|right]; reflexivity.
  - intros x h wd c Hw.
    unfold barrier_potential, infinite_well, np_zeros_like.
    apply map_ext. intros xi.
    cbn [fltb fsub fadd fdiv of_int fzero Num_R].
    destruct (Rlt_dec (c - wd / 2) xi);
      destruct (Rlt_dec xi (c + wd / 2));
      cbn [andb]; try reflexivity; exfalso; lra.
Qed.

Lemma barrier_potential_shape_witness :
  barrier_potential [0%R; (1 / 2)%R; 1%R] 7%R (-1)%R (1 / 2)%R
  = infinite_well [0%R; (1 / 2)%R; 1%R].
Proof.
  destruct barrier_potential_shape as [_ HR].
  apply (HR [0%R; (1 / 2)%R; 1%R] 7%R (-1)%R (1 / 2)%R). lra.
Defined.

(** X16. The double barrier.  The array has the grid's length and holds
    nothing but the height and zero: where the two windows overlap the
    height is not doubled.  In exact arithmetic, with separation zero the
    two windows coincide and the result is the single barrier centred at
    0.4, and a width that is zero or negative gives the flat potential. *)
Theorem double_barrier_shape :
  (forall (F : Type) (num : Num F) (x : list F) (h wd sep : F),
      length (double_barrier x h wd sep) = length x /\
      Forall (fun v => v = h \/ v = fzero) (double_barrier x h wd sep)) /\
  (forall (x : list R) (h wd : R),
      double_barrier x h wd 0%R = barrier_potential x h wd (4 / 10)%R) /\
  (forall (x : list R) (h wd sep : R),
      (wd <= 0)%R -> double_barrier x h wd sep = infinite_well x).
Proof.
  split; [|split].
  - intros F num x h wd sep. unfold double_barrier. split.
    + apply length_map.
    + apply Forall_map, Forall_forall. intros xi _.
      destruct (_ || _); [left|right]; reflexivity.
  - intros x h wd. unfold double_barrier, barrier_potential.
    apply map_ext. intros xi.
    cbn [fltb fsub fadd fdiv of_int fzero Num_R].
    replace (4 / 10 + 0)%R with (4 / 10)%R by ring.
    destruct (Rlt_dec (4 / 10 - wd / 2) xi);
      destruct (Rlt_dec xi (4 / 10 + wd / 2)); reflexivity.
  - intros x h wd sep Hw. unfold double_barrier, infinite_well, np_zeros_like.
    apply map_ext. intros xi.
    cbn [fltb fsub fadd fdiv of_int fzero Num_R].
    destruct (Rlt_dec (4 / 10 - wd / 2) xi);
      destruct (Rlt_dec xi (4 / 10 + wd / 2));
      destruct (Rlt_dec (4 / 10 + sep - wd / 2) xi);
      destruct (Rlt_dec xi (4 / 10 + sep + wd / 2));
      cbn [andb orb]; try reflexivity; exfalso; lra.
Qed.

Lemma double_barrier_shape_witness :
  double_barrier [0%R; (2 / 5)%R; 1%R] 7%R 0%R (1 / 5)%R
  = infinite_well [0%R; (2 / 5)%R; 1%R].
Proof.
  destruct double_barrier_shape as (_ & _ & HR).
  apply (HR [0%R; (2 / 5)%R; 1%R] 7%R 0%R (1 / 5)%R). lra.
Defined.

(** X17. The evolutions of [examples.py].  On
    [QuantumSimulator(L=1.0, N=500, dt=0.0001)], with any installed
    500-point state, [evolve(0.5)], [evolve(0.4)] and [evolve(1.0)] perform
    5000, 4000 and 10000 steps, but [evolve(0.6)] performs 5999: in
    binary64 the quotient [0.6 / 0.0001] lies just below 6000 and is
    truncated. *)
Theorem example_evolutions :
  forall (expm_action :
            matrix (complex float) -> list (complex float) -> list (complex float))
         (h : list (list (complex float))) (psi0 : list (complex float)),
    (forall A B, length (expm_action A B) = length B) ->
    length psi0 = 500%nat ->
    let w0 := snd (set_initial_wavefunction psi0 (mkWorld example_box h)) in
    let entries (t : float) (n : Z) :=
      exists w1, evolve expm_action t w0 = (Ok tt, w1) /\
                 Z.of_nat (length (self_history (self w1))) = n in
    entries 0.5%float 5001 /\ entries 0.4%float 4001 /\
    entries 0.6%float 6000 /\ entries 1%float 10001.
Proof.
  intros expm_action h psi0 Hlen Hpsi w0 entries.
  assert (ready w0) as Hr.
  { apply set_initial_ready.
    - split; reflexivity.
    - reflexivity.
    - cbn [self]. rewrite Hpsi. reflexivity. }
  assert (length (self_history (self w0)) = 1%nat /\
          self_dt (self w0) = 0.0001%float) as [Hh0 Hd0].
  { subst w0. rewrite set_initial_wavefunction_run. split; reflexivity. }
  assert (forall t k,
             float_to_int (t / 0.0001)%float = Ok k ->
             entries t (Z.of_nat (Z.to_nat k) + 1)) as Hgen.
  { intros t k Hk. unfold entries.
    rewrite (evolve_loop expm_action t k w0).
    - destruct (for_range_step expm_action Hlen (Z.to_nat k) w0 Hr)
        as (w1 & Hrun & _ & Hl & _).
      exists w1. split; [exact Hrun|]. rewrite Hl, Hh0. lia.
    - rewrite Hd0. reflexivity.
    - rewrite Hd0. exact Hk. }
  split; [|split; [|split]].
  - apply (Hgen 0.5%float 5000). vm_compute. reflexivity.
  - apply (Hgen 0.4%float 4000). vm_compute. reflexivity.
  - apply (Hgen 0.6%float 5999). vm_compute. reflexivity.
  - apply (Hgen 1%float 10000). vm_compute. reflexivity.
Qed.

Lemma example_evolutions_witness :
  exists w1,
    evolve idle_action 0.6%float
      (snd (set_initial_wavefunction (repeat (Cplx 1%float 0%float) 500)
              (mkWorld example_box []))) = (Ok tt, w1) /\
    Z.of_nat (length (self_history (self w1))) = 6000.
Proof.
  destruct (example_evolutions idle_action []
              (repeat (Cplx 1%float 0%float) 500))
    as (_ & _ & H & _).
  - reflexivity.
  - apply repeat_length.
  - exact H.
Defined.

(** * Properties of the initial conditions *)


(** * Properties of the demonstrations *)

(** X21. Two demonstrations never simulate.  [run_tunneling_demo] and
    [run_double_barrier_resonance] construct the simulator and replace its
    potential, then read [sim.U]; the simulator has an attribute
    [U_matrix] but none called [U], so both end with [AttributeError]
    before any wavefunction is installed, whatever the following
    statements would do. *)
Theorem demonstrations_without_attribute :
  forall (rest : attr_value -> QuantumSimulator float -> outcome),
    run_tunneling_demo rest = AttributeError "U" /\
    run_double_barrier_resonance rest = AttributeError "U" /\
    (forall s : QuantumSimulator float,
        getattr s "U" = None /\
        getattr s "U_matrix" = Some (VNoneOrMatrix (self_U_matrix s))).
Proof.
  intros rest. split; [|split].
  - vm_compute. reflexivity.
  - vm_compute. reflexivity.
  - intros s. split; reflexivity.
Qed.
